(** * Timeable: a countdown-timer widget (src/timeable.js)

    A shallow embedding of the [Timeable] class and of [initializeTimer].

    Numbers are modelled as mathematical integers [Z]; this is exact for the
    JavaScript numbers the widget handles as long as they are integers in
    the safe range.  Strings are [string], the DOM is a finite map from
    element ids to elements, the interval scheduler is an explicit list of
    active handles, and everything the widget says to the outside (console
    messages, callback invocations) is recorded in a trace. *)

From Stdlib Require Import ZArith Lia Ascii.
From stdpp Require Import gmap strings list pretty.

Local Open Scope string_scope.
Local Open Scope list_scope.
Local Open Scope Z_scope.

(** ** JavaScript values and strings *)

Module JS.

(** The values an option of the configuration object can hold.  A function
    is identified by a number. *)
Inductive value : Type :=
| VUndefined
| VNull
| VBool (b : bool)
| VNum (n : Z)
| VStr (s : string)
| VObj
| VFun (f : nat).

#[global] Instance value_eq_dec : EqDecision value.
Proof. solve_decision. Defined.

(** [typeof v === 'function'] *)
Definition is_function (v : value) : bool :=
  match v with VFun _ => true | _ => false end.

(** ToBoolean, as used by [if (v)] and [v || w]. *)
Definition truthy (v : value) : bool :=
  match v with
  | VUndefined | VNull => false
  | VBool b => b
  | VNum n => negb (n =? 0)
  | VStr s => negb (bool_decide (s = ""))
  | VObj | VFun _ => true
  end.

(** [s.startsWith(sub)] *)
Fixpoint starts_with (sub s : string) : bool :=
  match sub, s with
  | EmptyString, _ => true
  | String a sub', String b s' => bool_decide (a = b) && starts_with sub' s'
  | String _ _, EmptyString => false
  end.

(** [s.includes(sub)]: [sub] occurs in [s] at some position. *)
Fixpoint includes (s sub : string) : bool :=
  starts_with sub s ||
  match s with
  | EmptyString => false
  | String _ s' => includes s' sub
  end.

(** Number-to-string conversion of a template literal, on integers. *)
Definition to_string (n : Z) : string := pretty n.

End JS.
Import JS.

(** ** The DOM element, the widget object and the world around it *)

Record Element : Type := mkElement {
  innerText : string;
  classList : list string
}.

(** [classList.add], [classList.remove] and [classList.contains] of a
    DOMTokenList: an ordered set of tokens. *)
Definition classList_add (c : string) (l : list string) : list string :=
  if bool_decide (c ∈ l) then l else l ++ [c].

Definition classList_remove (c : string) (l : list string) : list string :=
  filter (λ x, x ≠ c) l.

Definition classList_contains (c : string) (l : list string) : bool :=
  bool_decide (c ∈ l).

(** The configuration object: [format] is a string when present, the two
    callback options may hold any value. *)
Record Options : Type := mkOptions {
  opt_format : option string;
  opt_onComplete : value;
  opt_onTick : value
}.

(** A fully constructed widget.  [element] is the reference to the DOM
    node, represented by the id it was found under.  [interval] is [null]
    ([None]) or the handle returned by [setInterval], which is never falsy,
    so that [if (this.interval)] is a test for [Some]. *)
Record Timeable : Type := mkTimeable {
  element : string;
  duration : Z;
  remainingTime : Z;
  interval : option positive;
  options : Options;
  format : string;
  onComplete : value;
  onTick : value
}.

(** ** Time formatting (pure) *)

(** [padZero(num)] *)
Definition padZero (num : Z) : string :=
  if num <? 10 then "0" +:+ to_string num else to_string num.

(** [formatTime(seconds)]; [%] is the truncating remainder, [Math.floor]
    of a quotient is the flooring division. *)
Definition formatTime (this : Timeable) (seconds : Z) : string :=
  let hrs := seconds / 3600 in
  let mins := Z.rem seconds 3600 / 60 in
  let secs := Z.rem seconds 60 in
  let formattedTime := "" in
  let formattedTime :=
    if includes (format this) "hh"
    then formattedTime +:+ (padZero hrs +:+ ":") else formattedTime in
  let formattedTime :=
    if includes (format this) "mm"
    then formattedTime +:+ (padZero mins +:+ ":") else formattedTime in
  let formattedTime :=
    if includes (format this) "ss"
    then formattedTime +:+ padZero secs else formattedTime in
  formattedTime.

(** ** The world: DOM, interval scheduler, observable trace *)

Inductive event : Type :=
| ConsoleError (msg : string)
| ConsoleWarn (msg : string)
| Call (f : nat) (args : list value).

#[global] Instance event_eq_dec : EqDecision event.
Proof. solve_decision. Defined.

(** [timers] lists the handles of the intervals that [setInterval] has
    scheduled and [clearInterval] has not cancelled yet.  The only callback
    ever scheduled is the widget's tick closure, so a handle is all that has
    to be recorded.  [nextHandle] is the handle the next [setInterval]
    returns. *)
Record World : Type := mkWorld {
  document : gmap string Element;
  timers : list positive;
  nextHandle : positive;
  trace : list event
}.

Record St : Type := mkSt {
  this : Timeable;
  world : World
}.

(** A widget object after [new Timeable(...)]: either only its [element]
    property was assigned (and is [null]), or it is fully constructed. *)
Inductive Instance : Type :=
| Bare
| Ready (t : Timeable).

(** ** A state monad with exceptions *)

Inductive exn : Type := TypeError.

Inductive completion (A : Type) : Type :=
| Normal (a : A)
| Throw (e : exn).
Arguments Normal {A} a.
Arguments Throw {A} e.

Definition M (A : Type) : Type := St → completion A * St.

Definition ret {A} (a : A) : M A := λ s, (Normal a, s).

Definition bind {A B} (m : M A) (k : A → M B) : M B := λ s,
  match m s with
  | (Normal a, s') => k a s'
  | (Throw e, s') => (Throw e, s')
  end.

Declare Scope js_scope.
Delimit Scope js_scope with js.
Notation "'let*' x := m 'in' k" := (bind m (λ x, k))
  (at level 10, x name, m at level 100, k at level 200) : js_scope.
Notation "m >> k" := (bind m (λ _, k))
  (at level 90, right associativity) : js_scope.
Local Open Scope js_scope.

Definition get_this : M Timeable := λ s, (Normal (this s), s).

Definition modify_this (f : Timeable → Timeable) : M unit := λ s,
  (Normal tt, mkSt (f (this s)) (world s)).

Definition modify_world (f : World → World) : M unit := λ s,
  (Normal tt, mkSt (this s) (f (world s))).

Definition throw {A} (e : exn) : M A := λ s, (Throw e, s).

(** Field updates. *)
Definition set_remainingTime (r : Z) (t : Timeable) : Timeable :=
  mkTimeable (element t) (duration t) r (interval t) (options t) (format t)
             (onComplete t) (onTick t).

Definition set_interval (i : option positive) (t : Timeable) : Timeable :=
  mkTimeable (element t) (duration t) (remainingTime t) i (options t)
             (format t) (onComplete t) (onTick t).

Definition set_document (d : gmap string Element) (w : World) : World :=
  mkWorld d (timers w) (nextHandle w) (trace w).

Definition log (e : event) (w : World) : World :=
  mkWorld (document w) (timers w) (nextHandle w) (trace w ++ [e]).

Definition set_innerText (txt : string) (e : Element) : Element :=
  mkElement txt (classList e).

Definition map_classList (f : list string → list string) (e : Element)
  : Element :=
  mkElement (innerText e) (f (classList e)).

(** ** Host primitives *)

Definition console_warn (msg : string) : M unit :=
  modify_world (log (ConsoleWarn msg)).

(** [setInterval(tick, 1000)]: a fresh handle becomes active. *)
Definition setInterval : M positive := λ s,
  let w := world s in
  let h := nextHandle w in
  (Normal h,
   mkSt (this s)
        (mkWorld (document w) (timers w ++ [h]) (Pos.succ h) (trace w))).

(** [clearInterval(h)] *)
Definition cancel (h : positive) (l : list positive) : list positive :=
  filter (λ x, x ≠ h) l.

Definition clearInterval (h : positive) : M unit :=
  modify_world (λ w,
    mkWorld (document w) (cancel h (timers w)) (nextHandle w) (trace w)).

(** Writing through the element reference. *)
Definition update_element (f : Element → Element) : M unit := λ s,
  (Normal tt,
   mkSt (this s)
        (set_document (alter f (element (this s)) (document (world s)))
                      (world s))).

(** [v(args)]: calling anything but a function raises a TypeError.  A
    callback is opaque: it returns normally and leaves the widget alone. *)
Definition call (v : value) (args : list value) : M unit :=
  match v with
  | VFun f => modify_world (log (Call f args))
  | _ => throw TypeError
  end.

(** ** The methods of [Timeable] *)

(** [render()] *)
Definition render : M unit :=
  update_element (map_classList (classList_add "timeable-timer")) >>
  let* t := get_this in
  update_element (set_innerText (formatTime t (remainingTime t))).

(** [pause()] *)
Definition pause : M unit :=
  let* t := get_this in
  match interval t with
  | Some h =>
      clearInterval h >>
      modify_this (set_interval None)
  | None =>
      console_warn "Timeable Warning: Timer is not running."
  end.

(** [updateDisplay()] *)
Definition updateDisplay : M unit :=
  let* t := get_this in
  update_element (set_innerText (formatTime t (remainingTime t))).

(** [reset()] *)
Definition reset : M unit :=
  pause >>
  modify_this (λ t, set_remainingTime (duration t) t) >>
  updateDisplay >>
  update_element (map_classList (classList_remove "complete")).

(** [complete()] *)
Definition complete : M unit :=
  pause >>
  (let* t := get_this in update_element (set_innerText (formatTime t 0))) >>
  update_element (map_classList (classList_add "complete")) >>
  let* t := get_this in
  if truthy (onComplete t) then call (onComplete t) [] else ret tt.

(** The arrow function handed to [setInterval] by [start()]. *)
Definition tick : M unit :=
  let* t := get_this in
  if 0 <? remainingTime t then
    modify_this (λ t, set_remainingTime (remainingTime t - 1) t) >>
    updateDisplay >>
    let* t := get_this in
    if truthy (onTick t) then call (onTick t) [VNum (remainingTime t)]
    else ret tt
  else
    complete.

(** [start()] *)
Definition start : M unit :=
  let* t := get_this in
  match interval t with
  | Some _ =>
      console_warn "Timeable Warning: Timer is already running."
  | None =>
      let* h := setInterval in
      modify_this (set_interval (Some h))
  end.

(** [new Timeable(elementId, duration, options)] *)
Definition constructor (elementId : string) (duration : Z) (options : Options)
    (w : World) : completion Instance * World :=
  match document w !! elementId with
  | None =>
      (Normal Bare,
       log (ConsoleError ("Timeable Error: Element with ID '" +:+ elementId
                          +:+ "' not found.")) w)
  | Some _ =>
      let t :=
        mkTimeable elementId duration duration None options
          (match opt_format options with
           | Some f => if bool_decide (f = "") then "mm:ss" else f
           | None => "mm:ss"
           end)
          (if is_function (opt_onComplete options)
           then opt_onComplete options else VNull)
          (if is_function (opt_onTick options)
           then opt_onTick options else VNull) in
      match render (mkSt t w) with
      | (Normal _, s) => (Normal (Ready (this s)), world s)
      | (Throw e, s) => (Throw e, world s)
      end
  end.

(** [initializeTimer(elementId, duration, options)]: [None] is [null]. *)
Definition initializeTimer (elementId : string) (duration : Z)
    (options : Options) (w : World) : completion (option Timeable) * World :=
  match constructor elementId duration options w with
  | (Normal (Ready timer), w') =>
      match start (mkSt timer w') with
      | (Normal _, s) => (Normal (Some (this s)), world s)
      | (Throw e, s) => (Throw e, world s)
      end
  | (Normal Bare, w') => (Normal None, w')
  | (Throw e, w') => (Throw e, w')
  end.

(** ** The widget in its environment

    What can happen to a constructed widget: its public methods are called,
    or the scheduler fires the interval with handle [h].  A handle that is
    not active never fires. *)
Inductive op : Type :=
| Start
| Pause
| Reset
| Complete
| Render
| UpdateDisplay
| Fire (h : positive).

Definition fire (h : positive) : M unit := λ s,
  if bool_decide (h ∈ timers (world s)) then tick s else (Normal tt, s).

Definition exec (o : op) : M unit :=
  match o with
  | Start => start
  | Pause => pause
  | Reset => reset
  | Complete => complete
  | Render => render
  | UpdateDisplay => updateDisplay
  | Fire h => fire h
  end.

(** The state after [o]; an exception does not roll back what was done
    before it was raised. *)
Definition step (s : St) (o : op) : St := (exec o s).2.

Definition run (ops : list op) (s : St) : St := foldl step s ops.

(** One period of the scheduler: every interval that is active when the
    period begins comes due once, in the order of scheduling; one that has
    been cancelled meanwhile does not fire. *)
Definition elapse (s : St) : St :=
  foldl (λ s h, step s (Fire h)) s (timers (world s)).

Definition elapse_n (n : nat) (s : St) : St := Nat.iter n elapse s.

(** Observations. *)
Definition surface (s : St) : option Element :=
  document (world s) !! element (this s).

Definition displayed (s : St) : option string := innerText <$> surface s.

Definition marked_complete (s : St) : bool :=
  match surface s with
  | Some e => classList_contains "complete" (classList e)
  | None => false
  end.

(** How often the function [f] has been called without arguments, which is
    how [complete()] calls [onComplete]. *)
Definition completions (f : nat) (tr : list event) : nat :=
  length (filter (λ e, e = Call f []) tr).

(** ** Auxiliary definitions for the statements *)

Arguments formatTime : simpl never.
Arguments cancel : simpl never.
Arguments classList_add : simpl never.
Arguments classList_remove : simpl never.

(** Unfolds a method down to the state it returns. *)
Ltac js_unfold :=
  unfold step, exec, fire, tick, reset, complete, render, start, pause,
    updateDisplay, call, console_warn, setInterval,
    clearInterval, update_element, modify_this, modify_world, get_this,
    throw, bind, ret in *.

(** What the constructor stores for a callback: a function or [null]. *)
Definition stored_callback (v : value) : Prop :=
  v = VNull ∨ ∃ f, v = VFun f.

(** The handle kept by the widget and the intervals the scheduler holds
    agree, the element reference resolves, the callbacks are callable. *)
Record wf (s : St) : Prop := mk_wf {
  wf_timers :
    timers (world s) =
      match interval (this s) with Some h => [h] | None => [] end;
  wf_surface : is_Some (surface s);
  wf_onComplete : stored_callback (onComplete (this s));
  wf_onTick : stored_callback (onTick (this s))
}.

(** The widget a successful construction returns. *)
Definition fresh (elementId : string) (d : Z) (opts : Options) : Timeable :=
  mkTimeable elementId d d None opts
    (match opt_format opts with
     | Some f => if bool_decide (f = "") then "mm:ss" else f
     | None => "mm:ss"
     end)
    (if is_function (opt_onComplete opts) then opt_onComplete opts
     else VNull)
    (if is_function (opt_onTick opts) then opt_onTick opts else VNull).

Definition rendered (t : Timeable) (e : Element) : Element :=
  mkElement (formatTime t (remainingTime t))
            (classList_add "timeable-timer" (classList e)).

(** What a tick and a completion add to the trace. *)
Definition tick_call (v : value) (r : Z) : list event :=
  match v with VFun g => [Call g [VNum r]] | _ => [] end.

Definition complete_call (v : value) : list event :=
  match v with VFun f => [Call f []] | _ => [] end.

(** The calls of [onTick] made by the first [n] ticks of a countdown that
    starts at [r]. *)
Fixpoint tick_calls (v : value) (r : Z) (n : nat) : list event :=
  match n with
  | O => []
  | S n' => tick_calls v r n' ++ tick_call v (r - Z.of_nat n)
  end.

(** The element after [n] ticks of a countdown from [r]: the text is
    rewritten by every tick, the classes are left alone. *)
Definition counted (t : Timeable) (r : Z) (n : nat) (e : Element)
  : Element :=
  mkElement
    (match n with
     | O => innerText e
     | S _ => formatTime t (r - Z.of_nat n)
     end)
    (classList e).

(** The element after the completion of a widget [t]. *)
Definition completed (t : Timeable) (e : Element) : Element :=
  mkElement (formatTime t 0) (classList_add "complete" (classList e)).

(** A page with one empty element, and a configuration with both
    callbacks. *)
Definition sample_world : World :=
  mkWorld {[ "timer" := mkElement "" [] ]} [] 1%positive [].

Definition sample_opts : Options :=
  mkOptions (Some "mm:ss") (VFun 1) (VFun 2).

Definition sample_widget (d : Z) : St :=
  mkSt (fresh "timer" d sample_opts)
       (constructor "timer" d sample_opts sample_world).2.

(** What the specification asks [formatTime] to join: the requested
    components, hours before minutes before seconds. *)
Definition requested_components (t : Timeable) (seconds : Z) : list string :=
  (if includes (format t) "hh" then [padZero (seconds / 3600)] else [])
  ++ (if includes (format t) "mm"
      then [padZero (Z.rem seconds 3600 / 60)] else [])
  ++ (if includes (format t) "ss" then [padZero (Z.rem seconds 60)] else []).

(** A widget for format [f] bound to the sample page. *)
Definition sample_format (f : string) : Timeable :=
  fresh "timer" 0 (mkOptions (Some f) VUndefined VUndefined).

(** Destructs whatever the state returned by a method still branches on. *)
Ltac js_cases :=
  repeat (cbn;
          match goal with
          | |- context [match ?x with _ => _ end] => is_var x; destruct x
          | |- context [if ?b then _ else _] =>
              match type of b with bool => destruct b eqn:? end
          end).

(** The message logged when the element is not found. *)
Definition not_found_message (elementId : string) : string :=
  "Timeable Error: Element with ID '" +:+ elementId +:+ "' not found.".

(** The widget with another configuration object stored in [options]. *)
Definition set_options (o : Options) (t : Timeable) : Timeable :=
  mkTimeable (element t) (duration t) (remainingTime t) (interval t) o
             (format t) (onComplete t) (onTick t).

Definition with_options (o : Options) (s : St) : St :=
  mkSt (set_options o (this s)) (world s).

(** The configuration with every callback option that is not a function
    left out. *)
Definition absent_unless_function (v : value) : value :=
  if is_function v then v else VUndefined.

Definition without_bad_callbacks (o : Options) : Options :=
  mkOptions (opt_format o) (absent_unless_function (opt_onComplete o))
            (absent_unless_function (opt_onTick o)).

(** Two states that differ at most in what has been logged. *)
Definition same_but_trace (s s' : St) : Prop :=
  this s = this s'
  ∧ document (world s) = document (world s')
  ∧ timers (world s) = timers (world s')
  ∧ nextHandle (world s) = nextHandle (world s').

(** ** Definitions for the further properties *)

(** [classList.contains(c)] on the widget's element. *)
Definition has_class (c : string) (s : St) : bool :=
  match surface s with
  | Some e => classList_contains c (classList e)
  | None => false
  end.

#[global] Instance op_eq_dec : EqDecision op.
Proof. solve_decision. Defined.

(** The two warnings of the widget. *)
Definition already_running : string :=
  "Timeable Warning: Timer is already running.".

Definition not_running : string :=
  "Timeable Warning: Timer is not running.".

(** What a widget may say to the outside: one of its two warnings, a call
    of [onTick] with a number of seconds below the duration, or a call of
    [onComplete] without arguments. *)
Definition emitted (t : Timeable) (e : event) : Prop :=
  e = ConsoleWarn already_running
  ∨ e = ConsoleWarn not_running
  ∨ (∃ g r, onTick t = VFun g ∧ e = Call g [VNum r] ∧ 0 ≤ r < duration t)
  ∨ (∃ f, onComplete t = VFun f ∧ e = Call f []).

(** The warning of [pause()], which [reset()] and [complete()] go
    through. *)
Definition idle_warning (t : Timeable) : list event :=
  match interval t with
  | Some _ => []
  | None => [ConsoleWarn not_running]
  end.

(** No colon occurs in the string. *)
Fixpoint colon_free (s : string) : bool :=
  match s with
  | EmptyString => true
  | String c s' => negb (bool_decide (c = ":"%char)) && colon_free s'
  end.

(** Closes a goal [emitted t e] for a concrete event. *)
Ltac js_emitted :=
  unfold emitted; cbn;
  first
    [ left; reflexivity
    | right; left; reflexivity
    | right; right; left; eexists _, _;
      split; [reflexivity | split; [reflexivity | lia]]
    | right; right; right; eexists; split; reflexivity ].

(** * Properties *)

(** ** Strings and decimal numerals *)

Section Strings.

Lemma append_nil_l (s : string) : "" +:+ s = s.
Proof. reflexivity. Qed.

Lemma append_cons (a : Ascii.ascii) (s1 s2 : string) :
  String a s1 +:+ s2 = String a (s1 +:+ s2).
Proof. reflexivity. Qed.

Lemma append_nil_r (s : string) : s +:+ "" = s.
Proof.
  induction s as [|a s IH]; [done|]. by rewrite append_cons, IH.
Qed.

Lemma append_assoc (s1 s2 s3 : string) :
  s1 +:+ (s2 +:+ s3) = (s1 +:+ s2) +:+ s3.
Proof.
  induction s1 as [|a s1 IH]; [done|]. by rewrite !append_cons, IH.
Qed.

Lemma length_append (s1 s2 : string) :
  String.length (s1 +:+ s2) = (String.length s1 + String.length s2)%nat.
Proof.
  induction s1 as [|a s1 IH]; [done|]. rewrite append_cons. cbn.
  by rewrite IH.
Qed.

(** A number that needs more than [k] digits is printed with more than
    [k] characters. *)
Lemma pretty_N_go_length (k : nat) :
  ∀ (x : N) (s : string),
    (10 ^ N.of_nat k ≤ x)%N →
    (String.length s + k + 1 ≤ String.length (pretty_N_go x s))%nat.
Proof.
  assert (∀ x s,
    (String.length s ≤ String.length (pretty_N_go x s))%nat) as Hmono.
  { intros x. induction (N.lt_wf_0 x) as [x _ IH]. intros s.
    destruct (decide (x = 0%N)) as [->|Hx].
    - by rewrite pretty_N_go_0.
    - rewrite pretty_N_go_step by lia.
      etrans; [|apply IH; apply N.div_lt; lia]. cbn. lia. }
  induction k as [|k IH]; intros x s Hx.
  - cbn in Hx. rewrite pretty_N_go_step by lia.
    etrans; [|apply Hmono]. cbn. lia.
  - rewrite pretty_N_go_step.
    2:{ pose proof (N.pow_nonzero 10 (N.of_nat (S k))). lia. }
    etrans; [|apply IH].
    + cbn. lia.
    + apply N.div_le_lower_bound; [lia|].
      rewrite Nat2N.inj_succ, N.pow_succ_r' in Hx. lia.
Qed.

Lemma to_string_length (k : nat) (n : Z) :
  10 ^ Z.of_nat k ≤ n → (k + 1 ≤ String.length (to_string n))%nat.
Proof.
  intros Hn.
  assert (0 < 10 ^ Z.of_nat k) by (apply Z.pow_pos_nonneg; lia).
  destruct n as [|p|p]; try lia.
  unfold to_string, pretty, pretty_Z, pretty, pretty_positive, pretty,
    pretty_N.
  rewrite decide_False by lia.
  apply (pretty_N_go_length k (N.pos p) "").
  apply N2Z.inj_le. rewrite N2Z.inj_pow, nat_N_Z. cbn. lia.
Qed.

(** The ten one-digit numerals. *)
Lemma to_string_digit (n : Z) :
  0 ≤ n < 10 → String.length (to_string n) = 1%nat.
Proof.
  intros Hn.
  assert (n = 0 ∨ n = 1 ∨ n = 2 ∨ n = 3 ∨ n = 4 ∨ n = 5 ∨ n = 6 ∨ n = 7
          ∨ n = 8 ∨ n = 9) as Hcases by lia.
  repeat (destruct Hcases as [->|Hcases]; [reflexivity|]).
  by subst.
Qed.

End Strings.

(** ** Formatting *)

Section Formatting.

Lemma rem_nonneg_mod (a b : Z) : 0 ≤ a → 0 < b → Z.rem a b = a mod b.
Proof. intros. apply Z.rem_mod_nonneg; lia. Qed.

(** The three components of a non-negative number of seconds. *)
Lemma formatTime_components (t : Timeable) (s : Z) :
  0 ≤ s →
  formatTime t s =
    (if includes (format t) "hh" then padZero (s / 3600) +:+ ":" else "")
    +:+ (if includes (format t) "mm"
         then padZero (s mod 3600 / 60) +:+ ":" else "")
    +:+ (if includes (format t) "ss" then padZero (s mod 60) else "").
Proof.
  intros Hs. unfold formatTime.
  rewrite !rem_nonneg_mod by lia.
  destruct (includes (format t) "hh"), (includes (format t) "mm"),
    (includes (format t) "ss");
    rewrite ?append_nil_l, ?append_nil_r, ?append_assoc; reflexivity.
Qed.

Lemma padZero_small (n : Z) :
  0 ≤ n < 10 →
  padZero n = "0" +:+ to_string n ∧ String.length (padZero n) = 2%nat.
Proof.
  intros Hn. unfold padZero.
  destruct (Z.ltb_spec n 10); [|lia].
  split; [done|]. rewrite length_append, to_string_digit by done. done.
Qed.

Lemma padZero_large (n : Z) : 10 ≤ n → padZero n = to_string n.
Proof. intros Hn. unfold padZero. by destruct (Z.ltb_spec n 10); [lia|]. Qed.

(** The format is read from the widget only. *)
Lemma formatTime_format (t t' : Timeable) (s : Z) :
  format t = format t' → formatTime t s = formatTime t' s.
Proof. unfold formatTime. by intros ->. Qed.

End Formatting.

(** ** Lifecycle *)

Section Lifecycle.

Lemma cancel_singleton (h : positive) : cancel h [h] = [].
Proof. unfold cancel. cbn. by rewrite decide_False by auto. Qed.

Lemma cancel_nil (h : positive) : cancel h [] = [].
Proof. reflexivity. Qed.

Lemma wf_step (s : St) (o : op) : wf s → wf (step s o).
Proof.
  destruct s as [[el d r i os fm oc ot] [doc tm nh tr]].
  intros [Ht Hs Hc Hk]. unfold surface in *. cbn in *.
  destruct Hc as [->|[f ->]], Hk as [->|[g ->]], i as [h|]; subst tm;
    destruct o as [| | | | | |h']; js_unfold; cbn;
    try destruct (bool_decide (h' ∈ _)); try destruct (0 <? r); cbn.
  all: split; unfold surface, stored_callback; cbn;
    rewrite ?cancel_singleton, ?lookup_alter_eq, ?fmap_is_Some; eauto.
Qed.

Lemma wf_run (ops : list op) (s : St) : wf s → wf (run ops s).
Proof.
  revert s. induction ops as [|o ops IH]; intros s Hs; [done|].
  cbn. apply IH. by apply wf_step.
Qed.

(** No method and no tick of a well-formed widget raises. *)
Lemma exec_normal (s : St) (o : op) : wf s → (exec o s).1 = Normal tt.
Proof.
  destruct s as [[el d r i os fm oc ot] [doc tm nh tr]].
  intros [Ht Hs Hc Hk]. cbn in *.
  destruct Hc as [->|[f ->]], Hk as [->|[g ->]], i as [h|]; subst tm;
    destruct o as [| | | | | |h']; js_unfold; cbn;
    try destruct (bool_decide (h' ∈ _)); try destruct (0 <? r); done.
Qed.

(** *** Construction *)

Lemma constructor_found (elementId : string) (d : Z) (opts : Options)
    (w : World) (e : Element) :
  document w !! elementId = Some e →
  constructor elementId d opts w =
    (Normal (Ready (fresh elementId d opts)),
     set_document
       (<[elementId := rendered (fresh elementId d opts) e]> (document w))
       w).
Proof.
  intros He. unfold constructor. rewrite He. js_unfold. cbn.
  f_equal. unfold set_document. cbn. f_equal.
  apply map_eq. intros k. destruct (decide (k = elementId)) as [->|Hk].
  - by rewrite lookup_insert_eq, !lookup_alter_eq, He.
  - by rewrite lookup_insert_ne, !lookup_alter_ne by done.
Qed.

Lemma constructor_missing (elementId : string) (d : Z) (opts : Options)
    (w : World) :
  document w !! elementId = None →
  constructor elementId d opts w =
    (Normal Bare,
     log (ConsoleError ("Timeable Error: Element with ID '" +:+ elementId
                        +:+ "' not found.")) w).
Proof. intros He. unfold constructor. by rewrite He. Qed.

Lemma stored_callback_fresh (v : value) :
  stored_callback (if is_function v then v else VNull).
Proof. destruct v; cbn; unfold stored_callback; eauto. Qed.

Lemma constructor_ready (elementId : string) (d : Z) (opts : Options)
    (w w' : World) (t : Timeable) :
  constructor elementId d opts w = (Normal (Ready t), w') →
  ∃ e, document w !! elementId = Some e
       ∧ t = fresh elementId d opts
       ∧ w' = set_document (<[elementId := rendered t e]> (document w)) w.
Proof.
  intros Hc. destruct (document w !! elementId) as [e|] eqn:He.
  - rewrite (constructor_found _ _ _ _ e He) in Hc.
    injection Hc as <- <-. eauto.
  - by rewrite constructor_missing in Hc.
Qed.

Lemma constructor_wf (elementId : string) (d : Z) (opts : Options)
    (w w' : World) (t : Timeable) :
  timers w = [] →
  constructor elementId d opts w = (Normal (Ready t), w') →
  wf (mkSt t w').
Proof.
  intros Hw Hc. apply constructor_ready in Hc as (e & He & -> & ->).
  split; unfold surface; cbn; auto using stored_callback_fresh.
  rewrite lookup_insert_eq. eauto.
Qed.

(** *** Ticks *)

Lemma tick_positive (s : St) :
  wf s → 0 < remainingTime (this s) →
  (tick s).2 =
    mkSt (set_remainingTime (remainingTime (this s) - 1) (this s))
         (mkWorld
            (alter (set_innerText
                      (formatTime (this s) (remainingTime (this s) - 1)))
                   (element (this s)) (document (world s)))
            (timers (world s)) (nextHandle (world s))
            (trace (world s)
               ++ tick_call (onTick (this s)) (remainingTime (this s) - 1))).
Proof.
  destruct s as [[el d r i os fm oc ot] [doc tm nh tr]].
  intros [_ _ _ Hk] Hr. cbn in *.
  js_unfold. cbn. destruct (Z.ltb_spec 0 r); [|lia].
  destruct Hk as [->|[g ->]]; cbn; [|done].
  by rewrite app_nil_r.
Qed.

Lemma tick_zero (s : St) : remainingTime (this s) ≤ 0 → tick s = complete s.
Proof.
  intros Hr. unfold tick at 1, bind, get_this. cbn.
  by destruct (Z.ltb_spec 0 (remainingTime (this s))); [lia|].
Qed.

Lemma complete_running (s : St) (h : positive) :
  wf s → interval (this s) = Some h →
  (complete s).2 =
    mkSt (set_interval None (this s))
         (mkWorld
            (alter (map_classList (classList_add "complete"))
               (element (this s))
               (alter (set_innerText (formatTime (this s) 0))
                  (element (this s)) (document (world s))))
            [] (nextHandle (world s))
            (trace (world s) ++ complete_call (onComplete (this s)))).
Proof.
  destruct s as [[el d r i os fm oc ot] [doc tm nh tr]].
  intros [Ht _ Hc _] Hi. cbn in *. subst i tm.
  js_unfold. cbn. rewrite cancel_singleton.
  destruct Hc as [->|[g ->]]; cbn; [|done].
  by rewrite app_nil_r.
Qed.

Lemma complete_stops (s : St) :
  wf s →
  interval (this (step s Complete)) = None
  ∧ timers (world (step s Complete)) = [].
Proof.
  intros Hs.
  assert (interval (this (step s Complete)) = None) as Hi.
  { destruct s as [[el d r i os fm oc ot] [doc tm nh tr]].
    destruct Hs as [_ _ Hc _]. cbn in *.
    destruct Hc as [->|[f ->]], i; js_unfold; done. }
  split; [done|].
  pose proof (wf_timers _ (wf_step s Complete Hs)) as Ht.
  by rewrite Hi in Ht.
Qed.

(** *** The scheduler *)

Lemma fire_inactive (s : St) (h : positive) :
  h ∉ timers (world s) → step s (Fire h) = s.
Proof.
  intros Hh. unfold step, exec, fire. by rewrite bool_decide_eq_false_2.
Qed.

Lemma elapse_running (s : St) (h : positive) :
  wf s → interval (this s) = Some h → elapse s = (tick s).2.
Proof.
  intros Hs Hi. unfold elapse. rewrite (wf_timers _ Hs), Hi. cbn.
  unfold step, exec, fire. rewrite (wf_timers _ Hs), Hi.
  by rewrite bool_decide_eq_true_2 by set_solver.
Qed.

Lemma elapse_idle (s : St) : timers (world s) = [] → elapse s = s.
Proof. intros Ht. unfold elapse. by rewrite Ht. Qed.

Lemma elapse_n_S (n : nat) (s : St) :
  elapse_n (S n) s = elapse (elapse_n n s).
Proof. reflexivity. Qed.

Lemma elapse_n_idle (n : nat) (s : St) :
  timers (world s) = [] → elapse_n n s = s.
Proof.
  intros Ht. induction n as [|n IH]; [done|].
  rewrite elapse_n_S, IH. by apply elapse_idle.
Qed.

Lemma elapse_n_add (n m : nat) (s : St) :
  elapse_n (n + m) s = elapse_n m (elapse_n n s).
Proof.
  unfold elapse_n. rewrite Nat.add_comm. apply Nat.iter_add.
Qed.

Lemma wf_elapse (s : St) : wf s → wf (elapse s).
Proof.
  intros Hs. unfold elapse.
  generalize (timers (world s)). intros l. revert s Hs.
  induction l as [|h l IH]; intros s Hs; [done|].
  cbn. apply IH. by apply wf_step.
Qed.

Lemma wf_elapse_n (n : nat) (s : St) : wf s → wf (elapse_n n s).
Proof.
  intros Hs. induction n as [|n IH]; [done|].
  rewrite elapse_n_S. by apply wf_elapse.
Qed.

(** *** Counting down *)

Lemma countdown (n : nat) (s : St) (h : positive) :
  wf s → interval (this s) = Some h →
  Z.of_nat n ≤ remainingTime (this s) →
  this (elapse_n n s) =
    set_remainingTime (remainingTime (this s) - Z.of_nat n) (this s)
  ∧ timers (world (elapse_n n s)) = [h]
  ∧ nextHandle (world (elapse_n n s)) = nextHandle (world s)
  ∧ trace (world (elapse_n n s)) =
      trace (world s)
        ++ tick_calls (onTick (this s)) (remainingTime (this s)) n
  ∧ surface (elapse_n n s) =
      counted (this s) (remainingTime (this s)) n <$> surface s.
Proof.
  intros Hs Hi. induction n as [|n IH]; intros Hn.
  - change (elapse_n 0 s) with s. cbn [tick_calls].
    rewrite (wf_timers _ Hs), Hi, app_nil_r.
    repeat split; try done.
    + destruct s as [[] ?]. unfold set_remainingTime. cbn.
      f_equal. lia.
    + by destruct (surface s) as [[]|].
  - destruct IH as (Hthis & Htm & Hnh & Htr & Hsf); [lia|].
    pose proof (wf_elapse_n n s Hs) as Hs1.
    rewrite elapse_n_S.
    assert (interval (this (elapse_n n s)) = Some h) as Hi1
      by (by rewrite Hthis).
    assert (remainingTime (this (elapse_n n s))
            = remainingTime (this s) - Z.of_nat n) as Hr1
      by (by rewrite Hthis).
    rewrite (elapse_running _ h Hs1 Hi1), tick_positive by (done || lia).
    cbn [this world timers nextHandle trace].
    rewrite Hr1, Htr, Hthis, Htm, Hnh. cbn [onTick set_remainingTime].
    replace (remainingTime (this s) - Z.of_nat n - 1)
      with (remainingTime (this s) - Z.of_nat (S n)) by lia.
    repeat split; try done.
    + by rewrite <- app_assoc.
    + unfold surface in *. cbn [this world document element].
      rewrite lookup_alter_eq.
      replace (element (this (elapse_n n s))) with (element (this s))
        in Hsf by (by rewrite Hthis).
      change (element (set_remainingTime _ (this s)))
        with (element (this s)).
      rewrite Hsf. by destruct (document (world s) !! element (this s)).
Qed.

(** A running countdown at [r ≥ 0] expires on tick [r + 1]. *)
Lemma expiry (s : St) (h : positive) :
  wf s → interval (this s) = Some h → 0 ≤ remainingTime (this s) →
  let n := Z.to_nat (remainingTime (this s)) in
  this (elapse_n (S n) s) = set_interval None (set_remainingTime 0 (this s))
  ∧ timers (world (elapse_n (S n) s)) = []
  ∧ trace (world (elapse_n (S n) s)) =
      trace (world s)
        ++ tick_calls (onTick (this s)) (remainingTime (this s)) n
        ++ complete_call (onComplete (this s))
  ∧ surface (elapse_n (S n) s) = completed (this s) <$> surface s.
Proof.
  intros Hs Hi Hr n.
  destruct (countdown n s h Hs Hi) as (Hthis & Htm & Hnh & Htr & Hsf);
    [lia|].
  pose proof (wf_elapse_n n s Hs) as Hs1.
  assert (interval (this (elapse_n n s)) = Some h) as Hi1
    by (by rewrite Hthis).
  assert (remainingTime (this (elapse_n n s)) = 0) as Hr1
    by (rewrite Hthis; cbn; lia).
  rewrite elapse_n_S, (elapse_running _ h Hs1 Hi1), tick_zero by lia.
  rewrite (complete_running _ h Hs1 Hi1).
  cbn [this world timers trace]. rewrite Htr, Hthis.
  cbn [onComplete set_remainingTime].
  replace (remainingTime (this s) - Z.of_nat n) with 0 by lia.
  repeat split; try done.
  - by rewrite <- app_assoc.
  - unfold surface in *. cbn [this world document element set_interval].
    rewrite !lookup_alter_eq. rewrite Hthis in Hsf.
    change (element (set_remainingTime _ (this s)))
      with (element (this s)) in *.
    rewrite Hsf. by destruct (document (world s) !! element (this s)).
Qed.

(** *** Starting *)

Lemma start_idle (s : St) :
  interval (this s) = None →
  start s =
    (Normal tt,
     mkSt (set_interval (Some (nextHandle (world s))) (this s))
          (mkWorld (document (world s))
                   (timers (world s) ++ [nextHandle (world s)])
                   (Pos.succ (nextHandle (world s)))
                   (trace (world s)))).
Proof. intros Hi. js_unfold. by rewrite Hi. Qed.

Lemma start_running (s : St) (h : positive) :
  interval (this s) = Some h →
  start s =
    (Normal tt,
     mkSt (this s)
          (log (ConsoleWarn "Timeable Warning: Timer is already running.")
               (world s))).
Proof. intros Hi. js_unfold. by rewrite Hi. Qed.

(** *** Counting completions *)

Lemma completions_app (f : nat) (l1 l2 : list event) :
  completions f (l1 ++ l2) = (completions f l1 + completions f l2)%nat.
Proof. unfold completions. by rewrite filter_app, length_app. Qed.

Lemma completions_tick_calls (f : nat) (v : value) (r : Z) (n : nat) :
  completions f (tick_calls v r n) = 0%nat.
Proof.
  induction n as [|n IH]; [done|].
  cbn [tick_calls]. rewrite completions_app, IH.
  destruct v; try done.
  unfold completions. cbn. by rewrite decide_False by done.
Qed.

Lemma completions_complete_call (f : nat) :
  completions f (complete_call (VFun f)) = 1%nat.
Proof. unfold completions. cbn. by rewrite decide_True by done. Qed.

Lemma classList_contains_add (c : string) (l : list string) :
  classList_contains c (classList_add c l) = true.
Proof.
  unfold classList_contains, classList_add.
  apply bool_decide_eq_true_2. case_bool_decide; set_solver.
Qed.

Lemma classList_contains_remove (c : string) (l : list string) :
  classList_contains c (classList_remove c l) = false.
Proof.
  unfold classList_contains, classList_remove.
  apply bool_decide_eq_false_2. rewrite list_elem_of_filter. tauto.
Qed.

Lemma classList_contains_add_ne (c c' : string) (l : list string) :
  c ≠ c' →
  classList_contains c (classList_add c' l) = classList_contains c l.
Proof.
  intros Hc. unfold classList_contains, classList_add.
  apply bool_decide_ext. destruct (bool_decide (c' ∈ l)); [done|].
  rewrite elem_of_app, list_elem_of_singleton.
  split; [intros [?|?]; [done|congruence] | auto].
Qed.

(** *** A widget that has just been constructed and started *)

Lemma construct_start (elementId : string) (d : Z) (opts : Options)
    (w w' : World) (t : Timeable) :
  timers w = [] →
  constructor elementId d opts w = (Normal (Ready t), w') →
  ∃ e, document w !! elementId = Some e
    ∧ t = fresh elementId d opts
    ∧ trace w' = trace w
    ∧ surface (mkSt t w') = Some (rendered t e)
    ∧ wf (step (mkSt t w') Start)
    ∧ this (step (mkSt t w') Start) =
        set_interval (Some (nextHandle w)) t
    ∧ trace (world (step (mkSt t w') Start)) = trace w
    ∧ surface (step (mkSt t w') Start) = Some (rendered t e).
Proof.
  intros Hw Hc.
  pose proof (constructor_wf _ _ _ _ _ _ Hw Hc) as Hwf.
  apply constructor_ready in Hc as (e & He & Ht & Hw').
  exists e. split; [done|]. split; [done|].
  assert (surface (mkSt t w') = Some (rendered t e)) as Hsf.
  { unfold surface. rewrite Hw', Ht. cbn. by rewrite lookup_insert_eq. }
  split; [by rewrite Hw'|]. split; [done|].
  split; [by apply wf_step|].
  unfold step, exec. rewrite start_idle by (by rewrite Ht).
  cbn. rewrite Hw'. cbn. repeat split; try done.
  unfold surface in *. cbn in *. by rewrite <- Hsf, Hw'.
Qed.

End Lifecycle.

(** ** What a step leaves alone *)

Section Frames.

(** No method and no tick changes what the constructor fixed. *)
Lemma step_fixed (s : St) (o : op) :
  element (this (step s o)) = element (this s)
  ∧ duration (this (step s o)) = duration (this s)
  ∧ options (this (step s o)) = options (this s)
  ∧ format (this (step s o)) = format (this s)
  ∧ onComplete (this (step s o)) = onComplete (this s)
  ∧ onTick (this (step s o)) = onTick (this s).
Proof.
  destruct s as [[el d r i os fm oc ot] [doc tm nh tr]].
  destruct o; js_unfold; cbn; js_cases; done.
Qed.

Lemma run_fixed (ops : list op) (s : St) :
  element (this (run ops s)) = element (this s)
  ∧ duration (this (run ops s)) = duration (this s)
  ∧ options (this (run ops s)) = options (this s)
  ∧ format (this (run ops s)) = format (this s)
  ∧ onComplete (this (run ops s)) = onComplete (this s)
  ∧ onTick (this (run ops s)) = onTick (this s).
Proof.
  revert s. induction ops as [|o ops IH]; intros s; [done|].
  change (run (o :: ops) s) with (run ops (step s o)).
  destruct (IH (step s o)) as (-> & -> & -> & -> & -> & ->).
  apply step_fixed.
Qed.

(** [remainingTime] after one method call or tick. *)
Lemma step_remaining (s : St) (o : op) :
  remainingTime (this (step s o)) = remainingTime (this s)
  ∨ (0 < remainingTime (this s)
     ∧ remainingTime (this (step s o)) = remainingTime (this s) - 1)
  ∨ remainingTime (this (step s o)) = duration (this s).
Proof.
  destruct s as [[el d r i os fm oc ot] [doc tm nh tr]].
  destruct o; js_unfold; cbn; js_cases; auto;
    (right; left; split; [by apply Z.ltb_lt|done]).
Qed.

Lemma tick_remaining (s : St) :
  remainingTime (this (tick s).2) =
    if 0 <? remainingTime (this s) then remainingTime (this s) - 1
    else remainingTime (this s).
Proof.
  destruct s as [[el d r i os fm oc ot] [doc tm nh tr]].
  js_unfold; cbn; js_cases; done.
Qed.

Lemma reset_remaining (s : St) :
  remainingTime (this (step s Reset)) = duration (this s).
Proof.
  destruct s as [[el d r i os fm oc ot] [doc tm nh tr]].
  js_unfold; cbn; js_cases; done.
Qed.

Lemma run_bounds (ops : list op) (s : St) :
  0 ≤ remainingTime (this s) ≤ duration (this s) →
  0 ≤ remainingTime (this (run ops s)) ≤ duration (this s).
Proof.
  revert s. induction ops as [|o ops IH]; intros s Hs; [done|].
  change (run (o :: ops) s) with (run ops (step s o)).
  destruct (step_fixed s o) as (_ & Hd & _).
  rewrite <- Hd. apply IH. rewrite Hd.
  destruct (step_remaining s o) as [->|[[? ->]| ->]]; lia.
Qed.

End Frames.

(** ** Start, pause and reset *)

Section Controls.

Lemma pause_running (s : St) (h : positive) :
  interval (this s) = Some h →
  pause s =
    (Normal tt,
     mkSt (set_interval None (this s))
          (mkWorld (document (world s)) (cancel h (timers (world s)))
                   (nextHandle (world s)) (trace (world s)))).
Proof. intros Hi. js_unfold. by rewrite Hi. Qed.

Lemma pause_idle (s : St) :
  interval (this s) = None →
  pause s =
    (Normal tt,
     mkSt (this s)
          (log (ConsoleWarn "Timeable Warning: Timer is not running.")
               (world s))).
Proof. intros Hi. js_unfold. by rewrite Hi. Qed.

Lemma pause_remaining (s : St) :
  remainingTime (this (step s Pause)) = remainingTime (this s).
Proof.
  destruct s as [[el d r i os fm oc ot] [doc tm nh tr]].
  js_unfold; cbn; js_cases; done.
Qed.

Lemma cancel_removes (h : positive) (l : list positive) : h ∉ cancel h l.
Proof. unfold cancel. rewrite list_elem_of_filter. tauto. Qed.

Lemma pause_stops (s : St) :
  wf s →
  interval (this (step s Pause)) = None
  ∧ timers (world (step s Pause)) = [].
Proof.
  intros Hs.
  assert (interval (this (step s Pause)) = None) as Hi.
  { destruct s as [[el d r i os fm oc ot] [doc tm nh tr]].
    js_unfold; cbn; js_cases; done. }
  split; [done|].
  pose proof (wf_timers _ (wf_step s Pause Hs)) as Ht.
  by rewrite Hi in Ht.
Qed.

Lemma start_runs (s : St) :
  wf s →
  ∃ h, interval (this (step s Start)) = Some h
       ∧ timers (world (step s Start)) = [h]
       ∧ remainingTime (this (step s Start)) = remainingTime (this s).
Proof.
  intros Hs.
  assert (∃ h, interval (this (step s Start)) = Some h
               ∧ remainingTime (this (step s Start))
                 = remainingTime (this s)) as (h & Hi & Hr).
  { destruct s as [[el d r i os fm oc ot] [doc tm nh tr]].
    js_unfold; cbn; js_cases; eauto. }
  exists h. split; [done|]. split; [|done].
  pose proof (wf_timers _ (wf_step s Start Hs)) as Ht.
  by rewrite Hi in Ht.
Qed.

Lemma reset_surface (s : St) :
  surface (step s Reset) =
    (λ e, mkElement (formatTime (this s) (duration (this s)))
                    (classList_remove "complete" (classList e)))
      <$> surface s.
Proof.
  destruct s as [[el d r i os fm oc ot] [doc tm nh tr]].
  unfold surface. js_unfold; cbn; js_cases; cbn;
    rewrite !lookup_alter_eq; by destruct (doc !! el).
Qed.

Lemma reset_stops (s : St) :
  wf s →
  interval (this (step s Reset)) = None
  ∧ timers (world (step s Reset)) = [].
Proof.
  intros Hs.
  assert (interval (this (step s Reset)) = None) as Hi.
  { destruct s as [[el d r i os fm oc ot] [doc tm nh tr]].
    js_unfold; cbn; js_cases; done. }
  split; [done|].
  pose proof (wf_timers _ (wf_step s Reset Hs)) as Ht.
  by rewrite Hi in Ht.
Qed.

(** The trace is written, never read. *)
Lemma step_same_but_trace (s s' : St) (o : op) :
  same_but_trace s s' → same_but_trace (step s o) (step s' o).
Proof.
  destruct s as [[el d r i os fm oc ot] [doc tm nh tr]].
  destruct s' as [t' [doc' tm' nh' tr']].
  unfold same_but_trace. cbn. intros (<- & <- & <- & <-).
  destruct o; js_unfold; cbn; js_cases; done.
Qed.

Lemma elapse_same_but_trace (s s' : St) :
  same_but_trace s s' → same_but_trace (elapse s) (elapse s').
Proof.
  intros Hs. unfold elapse.
  replace (timers (world s')) with (timers (world s)) by apply Hs.
  generalize (timers (world s)). intros l. revert s s' Hs.
  induction l as [|h l IH]; intros s s' Hs; [done|].
  cbn. apply IH. by apply step_same_but_trace.
Qed.

Lemma elapse_n_same_but_trace (n : nat) (s s' : St) :
  same_but_trace s s' → same_but_trace (elapse_n n s) (elapse_n n s').
Proof.
  intros Hs. induction n as [|n IH]; [done|].
  rewrite !elapse_n_S. by apply elapse_same_but_trace.
Qed.

End Controls.

(** ** Callbacks *)

Section Callbacks.

(** The stored configuration object is never read. *)
Lemma exec_with_options (o : Options) (s : St) (a : op) :
  exec a (with_options o s) = ((exec a s).1, with_options o (exec a s).2).
Proof.
  destruct s as [[el d r i os fm oc ot] [doc tm nh tr]].
  unfold with_options.
  destruct a; js_unfold; cbn; js_cases; reflexivity.
Qed.

Lemma run_with_options (o : Options) (ops : list op) (s : St) :
  run ops (with_options o s) = with_options o (run ops s).
Proof.
  revert s. induction ops as [|a ops IH]; intros s; [done|].
  change (run (a :: ops) ?x) with (run ops (step x a)).
  unfold step at 1. rewrite exec_with_options. cbn [snd]. apply IH.
Qed.

(** The guard is what keeps a stored non-function from being called:
    calling one raises. *)
Lemma call_non_function (v : value) (args : list value) (s : St) :
  is_function v = false → call v args s = (Throw TypeError, s).
Proof. by destruct v. Qed.

End Callbacks.

(** ** The model at work *)

(** A three-second countdown on the sample page, run for six periods:
    [onTick] sees 2, 1 and 0, then [onComplete] is called, once. *)
Example sample_run :
  trace (world (elapse_n 6 (step (sample_widget 3) Start)))
  = [Call 2 [VNum 2]; Call 2 [VNum 1]; Call 2 [VNum 0]; Call 1 []]
  ∧ surface (elapse_n 6 (step (sample_widget 3) Start))
    = Some (mkElement "00:00" ["timeable-timer"; "complete"]).
Proof. by vm_compute. Qed.

(** Were a non-function stored as [onTick], the first tick would raise. *)
Example unguarded_store_raises :
  let t := mkTimeable "timer" 3 3 None sample_opts "mm:ss" VNull (VStr "x") in
  (exec (Fire 1%positive) (step (mkSt t sample_world) Start)).1
  = Throw TypeError.
Proof. by vm_compute. Qed.

(** ** The claims *)

(** C1. Take a widget constructed with a positive duration, in any state
    it can reach in which it is running, with [r] seconds remaining.  The
    next [r] ticks invoke no completion; tick [r + 1] marks the element
    "complete", shows the zero string, calls [onComplete] once (when there
    is one) and clears the interval; after that no period and no stale
    handle changes anything.  In any reachable state [complete()] leaves
    the widget without an active interval, so that time passing changes
    nothing until [start()]. *)
Theorem completion_fires_once (elementId : string) (d : Z) (opts : Options)
    (w w' : World) (t : Timeable) (ops : list op) (h : positive) :
  timers w = [] → 0 < d →
  constructor elementId d opts w = (Normal (Ready t), w') →
  let s0 := run ops (mkSt t w') in
  interval (this s0) = Some h →
  let r := Z.to_nat (remainingTime (this s0)) in
  let fin := elapse_n (S r) s0 in
  (∀ j f, (j ≤ r)%nat →
     completions f (trace (world (elapse_n j s0)))
     = completions f (trace (world s0)))
  ∧ displayed fin = Some (formatTime t 0)
  ∧ marked_complete fin = true
  ∧ trace (world fin) =
      trace (world s0)
        ++ tick_calls (onTick t) (remainingTime (this s0)) r
        ++ complete_call (onComplete t)
  ∧ (∀ f, onComplete t = VFun f →
       completions f (trace (world fin))
       = S (completions f (trace (world s0))))
  ∧ interval (this fin) = None
  ∧ timers (world fin) = []
  ∧ (∀ k, elapse_n (S r + k) s0 = fin)
  ∧ (∀ h', step fin (Fire h') = fin)
  ∧ (∀ ops',
       let s := step (run ops' (mkSt t w')) Complete in
       interval (this s) = None ∧ timers (world s) = []
       ∧ (∀ k, elapse_n k s = s) ∧ (∀ h', step s (Fire h') = s)).
Proof.
  intros Hw Hd Hc s0 Hi0 r fin.
  pose proof (constructor_wf _ _ _ _ _ _ Hw Hc) as Hwf.
  pose proof (wf_run ops _ Hwf) as Hs0. fold s0 in Hs0.
  destruct (run_fixed ops (mkSt t w')) as (_ & _ & _ & Hfmt & Hoc & Hot).
  fold s0 in Hfmt, Hoc, Hot. cbn in Hfmt, Hoc, Hot.
  assert (0 ≤ remainingTime (this s0)) as Hr0.
  { apply constructor_ready in Hc as (e & _ & Ht & _).
    pose proof (run_bounds ops (mkSt t w')) as Hb. fold s0 in Hb.
    rewrite Ht in Hb. cbn in Hb. lia. }
  destruct (wf_surface _ Hs0) as [e0 He0].
  destruct (expiry s0 h Hs0 Hi0 Hr0) as (Hthis & Htm & Htr & Hsf).
  fold r fin in Hthis, Htm, Htr, Hsf. rewrite Hot, Hoc in Htr.
  rewrite He0 in Hsf.
  split.
  { intros j f Hj.
    destruct (countdown j s0 h Hs0 Hi0) as (_ & _ & _ & Hj' & _); [lia|].
    rewrite Hj', completions_app, completions_tick_calls. lia. }
  split.
  { unfold displayed. rewrite Hsf. cbn. f_equal.
    by apply formatTime_format. }
  split.
  { unfold marked_complete. rewrite Hsf. cbn.
    apply classList_contains_add. }
  split; [done|]. split.
  { intros f Hf. rewrite Htr, Hf, !completions_app, completions_tick_calls,
      completions_complete_call. lia. }
  split; [by rewrite Hthis|]. split; [done|]. split.
  { intros k. rewrite elapse_n_add. by apply elapse_n_idle. }
  split.
  { intros h'. apply fire_inactive. rewrite Htm. set_solver. }
  intros ops' s.
  destruct (complete_stops (run ops' (mkSt t w')) (wf_run _ _ Hwf))
    as [Hi Htm'].
  fold s in Hi, Htm'. repeat split; try done.
  - intros k. by apply elapse_n_idle.
  - intros h'. apply fire_inactive. rewrite Htm'. set_solver.
Qed.

(** A two-second countdown on the sample page, just started. *)
Lemma completion_fires_once_witness :
  let s0 := run [Start] (sample_widget 2) in
  let fin := elapse_n (S (Z.to_nat (remainingTime (this s0)))) s0 in
  remainingTime (this s0) = 2
  ∧ displayed fin = Some (formatTime (this (sample_widget 2)) 0)
  ∧ marked_complete fin = true
  ∧ (∀ f, onComplete (this (sample_widget 2)) = VFun f →
       completions f (trace (world fin))
       = S (completions f (trace (world s0))))
  ∧ (∀ k, elapse_n (S (Z.to_nat (remainingTime (this s0))) + k) s0 = fin).
Proof.
  destruct (completion_fires_once "timer" 2 sample_opts sample_world
              (world (sample_widget 2)) (this (sample_widget 2)) [Start]
              1%positive)
    as (_ & Hd & Hm & _ & Hc & _ & _ & Hk & _);
    [reflexivity | lia | by vm_compute | reflexivity |].
  split; [vm_compute; reflexivity|]. split; [exact Hd|].
  split; [exact Hm|]. split; [exact Hc | exact Hk].
Defined.

(** C2, as stated, at the sample page: after three ticks of a three-second
    countdown the text is "00:00", but the marker is not set and
    [onComplete] has not been called. *)
Lemma three_ticks_counterexample :
  let s0 := step (sample_widget 3) Start in
  let s3 := elapse_n 3 s0 in
  displayed s0 = Some "00:03"
  ∧ displayed s3 = Some "00:00"
  ∧ marked_complete s3 = false
  ∧ completions 1 (trace (world s3)) = 0%nat
  ∧ ¬ (marked_complete s3 = true ∧ completions 1 (trace (world s3)) = 1%nat).
Proof.
  vm_compute. repeat split; try reflexivity. intros [? ?]. discriminate.
Qed.

(** C2, amended.  A widget constructed with duration 3 and format "mm:ss"
    shows "00:03"; after three ticks it shows "00:00", is still running,
    carries the "complete" marker only if the element already had it, and
    has not called [onComplete]; the fourth tick, the first one to find
    [remainingTime] at 0, sets the marker and calls [onComplete] once, and
    nothing happens after it. *)
Theorem three_second_scenario (elementId : string) (opts : Options)
    (w : World) (e : Element) :
  timers w = [] → document w !! elementId = Some e →
  opt_format opts = Some "mm:ss" →
  ∃ t w',
    constructor elementId 3 opts w = (Normal (Ready t), w')
    ∧ let s0 := step (mkSt t w') Start in
      let s3 := elapse_n 3 s0 in
      let s4 := elapse_n 4 s0 in
      displayed (mkSt t w') = Some "00:03"
      ∧ displayed s0 = Some "00:03"
      ∧ displayed s3 = Some "00:00"
      ∧ interval (this s3) = Some (nextHandle w)
      ∧ marked_complete s3 = classList_contains "complete" (classList e)
      ∧ (∀ f, completions f (trace (world s3)) = completions f (trace w))
      ∧ displayed s4 = Some "00:00"
      ∧ marked_complete s4 = true
      ∧ interval (this s4) = None
      ∧ (∀ f, onComplete t = VFun f →
           completions f (trace (world s4)) = S (completions f (trace w)))
      ∧ (∀ k, elapse_n (4 + k) s0 = s4).
Proof.
  intros Hw He Hf.
  pose proof (constructor_found elementId 3 opts w e He) as Hc.
  eexists _, _. split; [exact Hc|].
  set (t := fresh elementId 3 opts) in *.
  set (w' := set_document _ w) in *.
  intros s0 s3 s4.
  assert (format t = "mm:ss") as Hfmt by (subst t; cbn; by rewrite Hf).
  assert (formatTime t 3 = "00:03" ∧ formatTime t 0 = "00:00") as [Hf3 Hf0].
  { unfold formatTime. rewrite Hfmt. by vm_compute. }
  destruct (construct_start _ _ _ _ _ _ Hw Hc)
    as (e' & He' & _ & Htr' & Hsf & Hs0 & Hthis0 & Htr0 & Hsf0).
  assert (e' = e) as -> by congruence.
  fold s0 in Hs0, Hthis0, Htr0, Hsf0.
  assert (interval (this s0) = Some (nextHandle w)) as Hi0
    by (by rewrite Hthis0).
  assert (remainingTime (this s0) = 3) as Hr0 by (by rewrite Hthis0).
  destruct (countdown 3 s0 _ Hs0 Hi0) as (Hthis3 & _ & _ & Htr3 & Hsf3);
    [by rewrite Hr0|].
  fold s3 in Hthis3, Htr3, Hsf3.
  destruct (expiry s0 _ Hs0 Hi0) as (Hthis4 & Htm4 & Htr4 & Hsf4);
    [by rewrite Hr0|].
  rewrite Hr0 in *. change (Z.to_nat 3) with 3%nat in *.
  fold s4 in Hthis4, Htm4, Htr4, Hsf4.
  assert (displayed (mkSt t w') = Some "00:03") as Hd.
  { unfold displayed. rewrite Hsf. cbn. by rewrite Hf3. }
  split; [done|]. split.
  { unfold displayed. rewrite Hsf0. cbn. by rewrite Hf3. }
  split.
  { unfold displayed. rewrite Hsf3, Hsf0. cbn.
    rewrite (formatTime_format _ t) by done. exact (f_equal Some Hf0). }
  split; [by rewrite Hthis3|]. split.
  { unfold marked_complete. rewrite Hsf3, Hsf0. cbn.
    by apply classList_contains_add_ne. }
  split.
  { intros f. rewrite Htr3, completions_app, completions_tick_calls, Htr0.
    lia. }
  split.
  { unfold displayed. rewrite Hsf4, Hsf0. cbn.
    rewrite (formatTime_format _ t) by done. exact (f_equal Some Hf0). }
  split.
  { unfold marked_complete. rewrite Hsf4, Hsf0. cbn.
    apply classList_contains_add. }
  split; [by rewrite Hthis4|]. split.
  { intros f Hoc. rewrite Htr4, Hthis0. cbn [onComplete onTick set_interval].
    rewrite Hoc, !completions_app, completions_tick_calls,
      completions_complete_call, Htr0. lia. }
  intros k. rewrite elapse_n_add. by apply elapse_n_idle.
Qed.

(** The scenario on the sample page. *)
Lemma three_second_scenario_witness :
  ∃ t w',
    constructor "timer" 3 sample_opts sample_world = (Normal (Ready t), w')
    ∧ displayed (elapse_n 3 (step (mkSt t w') Start)) = Some "00:00"
    ∧ marked_complete (elapse_n 3 (step (mkSt t w') Start)) = false
    ∧ marked_complete (elapse_n 4 (step (mkSt t w') Start)) = true.
Proof.
  destruct (three_second_scenario "timer" sample_opts sample_world
              (mkElement "" []))
    as (t & w' & Hc & _ & _ & H3 & _ & Hm3 & _ & _ & Hm4 & _);
    [reflexivity | reflexivity | reflexivity |].
  exists t, w'. split; [exact Hc|]. split; [exact H3|].
  split; [exact Hm3|]. exact Hm4.
Defined.

(** C3. For [s ≥ 0] the components of [formatTime] are [s / 3600],
    [(s mod 3600) / 60] and [s mod 60]; [padZero] puts one "0" before a
    one-digit number, giving two characters, and returns the decimal
    numeral of a number from 10 on unchanged, so three or more characters
    from 100 on; the four examples of the specification hold. *)
Theorem formatTime_arithmetic (t : Timeable) (s : Z) :
  0 ≤ s →
  formatTime t s =
    (if includes (format t) "hh" then padZero (s / 3600) +:+ ":" else "")
    +:+ (if includes (format t) "mm"
         then padZero (s mod 3600 / 60) +:+ ":" else "")
    +:+ (if includes (format t) "ss" then padZero (s mod 60) else "")
  ∧ (∀ n, 0 ≤ n < 10 →
       padZero n = "0" +:+ to_string n ∧ String.length (padZero n) = 2%nat)
  ∧ (∀ n, 10 ≤ n →
       padZero n = to_string n ∧ (2 ≤ String.length (padZero n))%nat)
  ∧ (∀ n, 100 ≤ n → (3 ≤ String.length (padZero n))%nat)
  ∧ (∀ a b, 10 ≤ a → 10 ≤ b → padZero a = padZero b → a = b)
  ∧ formatTime (sample_format "ss") 65 = "05"
  ∧ formatTime (sample_format "mm:ss") 65 = "01:05"
  ∧ formatTime (sample_format "hh:mm:ss") 3661 = "01:01:01"
  ∧ formatTime (sample_format "mm:ss") 0 = "00:00".
Proof.
  intros Hs. split; [by apply formatTime_components|].
  split; [apply padZero_small|]. split.
  { intros n Hn. rewrite padZero_large by done. split; [done|].
    apply (to_string_length 1). cbn. lia. }
  split.
  { intros n Hn. rewrite padZero_large by lia.
    apply (to_string_length 2). cbn. lia. }
  split.
  { intros a b Ha Hb. rewrite !padZero_large by done.
    unfold to_string. apply (inj pretty). }
  by vm_compute.
Qed.

(** One hundred hours, and a one-digit component. *)
Lemma formatTime_arithmetic_witness :
  formatTime (sample_format "hh:mm:ss") 360000 = "100:00:00"
  ∧ String.length (padZero 7) = 2%nat.
Proof.
  destruct (formatTime_arithmetic (sample_format "hh:mm:ss") 360000)
    as (Hc & Hsmall & _); [lia|].
  split.
  - rewrite Hc. reflexivity.
  - apply Hsmall. lia.
Defined.

(** C4 on the code.  The output is the requested components in the order
    hours, minutes, seconds with one colon between neighbours, and nothing
    at all when no token is recognised; but when seconds are not requested
    and hours or minutes are, a colon follows the last component: the
    format "hh:mm" renders 3661 seconds as "01:01:" and the format "mm"
    renders 65 seconds as "01:". *)
Theorem formatTime_trailing_colon :
  (∀ t s,
     formatTime t s =
       String.concat ":" (requested_components t s)
       +:+ (if includes (format t) "ss" then ""
            else if includes (format t) "hh" || includes (format t) "mm"
                 then ":" else ""))
  ∧ formatTime (sample_format "hh:mm") 3661 = "01:01:"
  ∧ formatTime (sample_format "mm") 65 = "01:"
  ∧ formatTime (sample_format "xyz") 65 = "".
Proof.
  split.
  { intros t s. unfold formatTime, requested_components.
    destruct (includes (format t) "hh"), (includes (format t) "mm"),
      (includes (format t) "ss"); cbn [app String.concat orb];
      rewrite ?append_nil_l, ?append_nil_r, ?append_assoc; reflexivity. }
  by vm_compute.
Qed.

(** C5. In every state a widget constructed with a positive duration [d]
    can reach, [0 ≤ remainingTime ≤ duration = d]; a tick takes one off
    [remainingTime] exactly when it is positive, [reset()] puts it back to
    [d], and no method call or tick does anything else to it. *)
Theorem remaining_within_bounds (elementId : string) (d : Z) (opts : Options)
    (w w' : World) (t : Timeable) (ops : list op) :
  0 < d →
  constructor elementId d opts w = (Normal (Ready t), w') →
  let s := run ops (mkSt t w') in
  duration (this s) = d
  ∧ 0 ≤ remainingTime (this s) ≤ d
  ∧ remainingTime (this (tick s).2) =
      (if 0 <? remainingTime (this s) then remainingTime (this s) - 1
       else remainingTime (this s))
  ∧ remainingTime (this (step s Reset)) = d
  ∧ (∀ o, 0 ≤ remainingTime (this (step s o)) ≤ d
          ∧ (remainingTime (this (step s o)) = remainingTime (this s)
             ∨ (0 < remainingTime (this s) ∧
                remainingTime (this (step s o)) = remainingTime (this s) - 1)
             ∨ remainingTime (this (step s o)) = d)).
Proof.
  intros Hd Hc s.
  apply constructor_ready in Hc as (e & _ & Ht & _).
  assert (duration t = d ∧ remainingTime t = d) as [Htd Htr]
    by (by rewrite Ht).
  destruct (run_fixed ops (mkSt t w')) as (_ & Hdur & _).
  fold s in Hdur. cbn in Hdur. rewrite Htd in Hdur.
  assert (0 ≤ remainingTime (this s) ≤ d) as Hb.
  { pose proof (run_bounds ops (mkSt t w')) as Hb. cbn in Hb.
    rewrite Htd, Htr in Hb. apply Hb. lia. }
  split; [done|]. split; [done|].
  split; [apply tick_remaining|].
  split; [by rewrite reset_remaining|].
  intros o. pose proof (step_remaining s o) as Hr. rewrite Hdur in Hr.
  split; [|done]. destruct Hr as [->|[[? ->]| ->]]; lia.
Qed.

(** A run with a pause in the middle and more ticks than seconds. *)
Lemma remaining_within_bounds_witness :
  let s := run [Start; Fire 1%positive; Fire 1%positive; Pause; Start;
                Fire 2%positive; Fire 2%positive; Fire 2%positive]
               (sample_widget 3) in
  0 ≤ remainingTime (this s) ≤ 3.
Proof.
  destruct (remaining_within_bounds "timer" 3 sample_opts sample_world
              (world (sample_widget 3)) (this (sample_widget 3))
              [Start; Fire 1%positive; Fire 1%positive; Pause; Start;
               Fire 2%positive; Fire 2%positive; Fire 2%positive])
    as (_ & Hb & _); [lia | by vm_compute |].
  exact Hb.
Defined.

(** C6. [start()] on a running widget only logs a warning: the widget, the
    page and the scheduled intervals stay as they are.  So after two
    [start()] calls in a row exactly one interval is active, and after any
    number of periods the widget, the page and the scheduler are what they
    are after a single [start()]; one period takes exactly 1 off a positive
    [remainingTime]. *)
Theorem start_twice (elementId : string) (d : Z) (opts : Options)
    (w w' : World) (t : Timeable) (ops : list op) :
  timers w = [] →
  constructor elementId d opts w = (Normal (Ready t), w') →
  let s := run ops (mkSt t w') in
  let s1 := step s Start in
  let s2 := step s1 Start in
  (∀ s h, interval (this s) = Some h →
     start s =
       (Normal tt,
        mkSt (this s)
             (log (ConsoleWarn "Timeable Warning: Timer is already running.")
                  (world s))))
  ∧ this s2 = this s1
  ∧ document (world s2) = document (world s1)
  ∧ timers (world s2) = timers (world s1)
  ∧ (∃ h, interval (this s2) = Some h ∧ timers (world s2) = [h])
  ∧ trace (world s2) =
      trace (world s1)
        ++ [ConsoleWarn "Timeable Warning: Timer is already running."]
  ∧ remainingTime (this s2) = remainingTime (this s)
  ∧ (∀ n, same_but_trace (elapse_n n s2) (elapse_n n s1))
  ∧ remainingTime (this (elapse s2)) =
      (if 0 <? remainingTime (this s) then remainingTime (this s) - 1
       else remainingTime (this s)).
Proof.
  intros Hw Hc s s1 s2.
  pose proof (wf_run ops _ (constructor_wf _ _ _ _ _ _ Hw Hc)) as Hs.
  fold s in Hs.
  destruct (start_runs s Hs) as (h & Hi1 & Ht1 & Hr1).
  fold s1 in Hi1, Ht1, Hr1.
  pose proof (wf_step s Start Hs) as Hs1. fold s1 in Hs1.
  pose proof (wf_step s1 Start Hs1) as Hs2. fold s2 in Hs2.
  assert (s2 = mkSt (this s1)
                 (log (ConsoleWarn
                         "Timeable Warning: Timer is already running.")
                      (world s1))) as Hs2eq.
  { unfold s2, step, exec. by rewrite (start_running s1 h Hi1). }
  assert (this s2 = this s1) as Hthis by (by rewrite Hs2eq).
  assert (document (world s2) = document (world s1)) as Hdoc
    by (by rewrite Hs2eq).
  assert (interval (this s2) = Some h) as Hi2 by (by rewrite Hthis).
  split; [apply start_running|].
  split; [done|]. split; [done|].
  split; [by rewrite Hs2eq|].
  split; [exists h; split; [done|]; by rewrite Hs2eq|].
  split; [by rewrite Hs2eq|].
  split; [by rewrite Hthis|].
  split.
  { intros n. apply elapse_n_same_but_trace. by rewrite Hs2eq. }
  by rewrite (elapse_running s2 h Hs2 Hi2), tick_remaining, Hthis, Hr1.
Qed.

(** Two [start()] calls on the sample widget: one interval, one second
    per period. *)
Lemma start_twice_witness :
  let s2 := step (step (sample_widget 3) Start) Start in
  timers (world s2) = [1%positive]
  ∧ remainingTime (this (elapse s2)) = 2.
Proof.
  destruct (start_twice "timer" 3 sample_opts sample_world
              (world (sample_widget 3)) (this (sample_widget 3)) [])
    as (_ & _ & _ & Ht & _ & _ & _ & _ & Hr);
    [reflexivity | by vm_compute |].
  split; [exact Ht | exact Hr].
Defined.

(** C7. [pause()] on a running widget cancels its interval and clears the
    handle; on a widget that is not running it only logs a warning; in both
    cases [remainingTime] is untouched.  After a pause no interval of the
    widget is active, time passing changes nothing, and a following
    [start()] counts on from the paused value. *)
Theorem pause_resumes (elementId : string) (d : Z) (opts : Options)
    (w w' : World) (t : Timeable) (ops : list op) :
  timers w = [] →
  constructor elementId d opts w = (Normal (Ready t), w') →
  let s := run ops (mkSt t w') in
  let p := step s Pause in
  let q := step p Start in
  (∀ s h, interval (this s) = Some h →
     pause s =
       (Normal tt,
        mkSt (set_interval None (this s))
             (mkWorld (document (world s)) (cancel h (timers (world s)))
                      (nextHandle (world s)) (trace (world s))))
     ∧ h ∉ cancel h (timers (world s)))
  ∧ (∀ s, interval (this s) = None →
       pause s =
         (Normal tt,
          mkSt (this s)
               (log (ConsoleWarn "Timeable Warning: Timer is not running.")
                    (world s))))
  ∧ (∀ s, remainingTime (this (step s Pause)) = remainingTime (this s))
  ∧ interval (this p) = None
  ∧ timers (world p) = []
  ∧ (∀ k, elapse_n k p = p)
  ∧ remainingTime (this q) = remainingTime (this s)
  ∧ (∃ h, interval (this q) = Some h ∧ timers (world q) = [h])
  ∧ remainingTime (this (elapse q)) =
      (if 0 <? remainingTime (this s) then remainingTime (this s) - 1
       else remainingTime (this s)).
Proof.
  intros Hw Hc s p q.
  pose proof (wf_run ops _ (constructor_wf _ _ _ _ _ _ Hw Hc)) as Hs.
  fold s in Hs.
  pose proof (wf_step s Pause Hs) as Hp. fold p in Hp.
  pose proof (wf_step p Start Hp) as Hq. fold q in Hq.
  destruct (pause_stops s Hs) as [Hi Ht]. fold p in Hi, Ht.
  destruct (start_runs p Hp) as (h & Hiq & Htq & Hrq). fold q in Hiq, Htq, Hrq.
  pose proof (pause_remaining s) as Hr. fold p in Hr.
  split.
  { intros s' h' Hh'. split; [by apply pause_running|apply cancel_removes]. }
  split; [apply pause_idle|]. split; [apply pause_remaining|].
  split; [done|]. split; [done|].
  split; [intros k; by apply elapse_n_idle|].
  split; [by rewrite Hrq|].
  split; [by exists h|].
  by rewrite (elapse_running q h Hq Hiq), tick_remaining, Hrq, Hr.
Qed.

(** Pausing the sample widget after one tick. *)
Lemma pause_resumes_witness :
  let s := run [Start; Fire 1%positive] (sample_widget 3) in
  let p := step s Pause in
  let q := step p Start in
  remainingTime (this s) = 2
  ∧ interval (this p) = None
  ∧ (∀ k, elapse_n k p = p)
  ∧ remainingTime (this q) = remainingTime (this s)
  ∧ remainingTime (this (elapse q)) =
      (if 0 <? remainingTime (this s) then remainingTime (this s) - 1
       else remainingTime (this s)).
Proof.
  destruct (pause_resumes "timer" 3 sample_opts sample_world
              (world (sample_widget 3)) (this (sample_widget 3))
              [Start; Fire 1%positive])
    as (_ & _ & _ & Hi & _ & Hk & Hq & _ & He);
    [reflexivity | by vm_compute |].
  split; [vm_compute; reflexivity|].
  split; [exact Hi|]. split; [exact Hk|]. split; [exact Hq | exact He].
Defined.

(** C8. From every reachable state [reset()] returns normally and leaves
    the widget without an interval, with [remainingTime] back at the
    duration, the formatted duration on display and no "complete" marker;
    it schedules nothing, so time passing changes nothing afterwards. *)
Theorem reset_restores (elementId : string) (d : Z) (opts : Options)
    (w w' : World) (t : Timeable) (ops : list op) :
  timers w = [] →
  constructor elementId d opts w = (Normal (Ready t), w') →
  let s := run ops (mkSt t w') in
  let s' := step s Reset in
  (reset s).1 = Normal tt
  ∧ interval (this s') = None
  ∧ timers (world s') = []
  ∧ duration (this s') = d
  ∧ remainingTime (this s') = d
  ∧ displayed s' = Some (formatTime t d)
  ∧ marked_complete s' = false
  ∧ (∀ k, elapse_n k s' = s')
  ∧ (∀ h, step s' (Fire h) = s').
Proof.
  intros Hw Hc s s'.
  pose proof (wf_run ops _ (constructor_wf _ _ _ _ _ _ Hw Hc)) as Hs.
  fold s in Hs.
  apply constructor_ready in Hc as (e & _ & Ht & _).
  destruct (run_fixed ops (mkSt t w')) as (_ & Hdur & _ & Hfmt & _).
  fold s in Hdur, Hfmt. cbn in Hdur, Hfmt.
  assert (duration (this s) = d) as Hd by (by rewrite Hdur, Ht).
  destruct (reset_stops s Hs) as [Hi Htm]. fold s' in Hi, Htm.
  destruct (step_fixed s Reset) as (_ & Hdur' & _). fold s' in Hdur'.
  pose proof (reset_surface s) as Hsf. fold s' in Hsf.
  destruct (wf_surface _ Hs) as [e0 He0]. rewrite He0, Hd in Hsf.
  split; [apply (exec_normal s Reset Hs)|].
  split; [done|]. split; [done|].
  split; [by rewrite Hdur'|].
  split; [unfold s'; by rewrite reset_remaining|].
  split.
  { unfold displayed. rewrite Hsf. cbn. f_equal. by apply formatTime_format. }
  split.
  { unfold marked_complete. rewrite Hsf. cbn.
    apply classList_contains_remove. }
  split; [intros k; by apply elapse_n_idle|].
  intros h. apply fire_inactive. rewrite Htm. set_solver.
Qed.

(** Resetting the sample widget after it has completed. *)
Lemma reset_restores_witness :
  let s := run [Start; Fire 1%positive; Fire 1%positive; Fire 1%positive;
                Fire 1%positive] (sample_widget 3) in
  marked_complete s = true
  ∧ remainingTime (this (step s Reset)) = 3
  ∧ displayed (step s Reset)
    = Some (formatTime (this (sample_widget 3)) 3)
  ∧ marked_complete (step s Reset) = false.
Proof.
  destruct (reset_restores "timer" 3 sample_opts sample_world
              (world (sample_widget 3)) (this (sample_widget 3))
              [Start; Fire 1%positive; Fire 1%positive; Fire 1%positive;
               Fire 1%positive])
    as (_ & _ & _ & _ & Hr & Hd & Hm & _);
    [reflexivity | by vm_compute |].
  split; [vm_compute; reflexivity|].
  split; [exact Hr|]. split; [exact Hd | exact Hm].
Defined.

(** C9. When no element has the given id, the constructor returns normally
    with an object that holds no timer state; the only effect is one error
    on the console: page and scheduler are untouched.  [initializeTimer]
    returns [null] exactly in that case; otherwise it returns the widget,
    constructed and then started, with its interval scheduled. *)
Theorem missing_element (elementId : string) (d : Z) (opts : Options)
    (w : World) :
  (document w !! elementId = None →
     constructor elementId d opts w =
       (Normal Bare, log (ConsoleError (not_found_message elementId)) w)
     ∧ document (constructor elementId d opts w).2 = document w
     ∧ timers (constructor elementId d opts w).2 = timers w
     ∧ initializeTimer elementId d opts w =
         (Normal None, log (ConsoleError (not_found_message elementId)) w))
  ∧ (∀ e, document w !! elementId = Some e →
       ∃ t w',
         constructor elementId d opts w = (Normal (Ready t), w')
         ∧ trace w' = trace w
         ∧ initializeTimer elementId d opts w =
             (Normal (Some (this (step (mkSt t w') Start))),
              world (step (mkSt t w') Start))
         ∧ interval (this (step (mkSt t w') Start)) = Some (nextHandle w)
         ∧ timers (world (step (mkSt t w') Start))
           = timers w ++ [nextHandle w])
  ∧ ((initializeTimer elementId d opts w).1 = Normal None
     ↔ document w !! elementId = None).
Proof.
  assert (∀ e, document w !! elementId = Some e →
     ∃ t w',
       constructor elementId d opts w = (Normal (Ready t), w')
       ∧ trace w' = trace w
       ∧ initializeTimer elementId d opts w =
           (Normal (Some (this (step (mkSt t w') Start))),
            world (step (mkSt t w') Start))
       ∧ interval (this (step (mkSt t w') Start)) = Some (nextHandle w)
       ∧ timers (world (step (mkSt t w') Start))
         = timers w ++ [nextHandle w]) as Hfound.
  { intros e He.
    pose proof (constructor_found elementId d opts w e He) as Hc.
    eexists _, _. split; [exact Hc|]. split; [done|].
    unfold initializeTimer, step, exec. rewrite Hc.
    by rewrite start_idle by done. }
  assert (document w !! elementId = None →
          initializeTimer elementId d opts w =
            (Normal None, log (ConsoleError (not_found_message elementId)) w))
    as Hmissing.
  { intros He. unfold initializeTimer. by rewrite constructor_missing. }
  split.
  { intros He. rewrite constructor_missing by done. auto. }
  split; [done|]. split.
  - intros Hn. destruct (document w !! elementId) as [e|] eqn:He; [|done].
    destruct (Hfound e eq_refl) as (t & w' & _ & _ & Hi & _).
    rewrite Hi in Hn. discriminate.
  - intros He. by rewrite Hmissing.
Qed.

(** The sample page has an element "timer" and no element "clock". *)
Lemma missing_element_witness :
  initializeTimer "clock" 3 sample_opts sample_world =
    (Normal None,
     log (ConsoleError (not_found_message "clock")) sample_world)
  ∧ ∃ t w',
      initializeTimer "timer" 3 sample_opts sample_world =
        (Normal (Some (this (step (mkSt t w') Start))),
         world (step (mkSt t w') Start))
      ∧ interval (this (step (mkSt t w') Start)) = Some 1%positive.
Proof.
  destruct (missing_element "clock" 3 sample_opts sample_world)
    as (Hm & _ & _).
  destruct (missing_element "timer" 3 sample_opts sample_world)
    as (_ & Hf & _).
  split.
  - apply Hm. reflexivity.
  - destruct (Hf (mkElement "" []) eq_refl) as (t & w' & _ & _ & Hi & Hh & _).
    exists t, w'. split; [exact Hi | exact Hh].
Defined.

(** C10. A callback option that is not a function is stored as [null].  No
    method call and no tick of a constructed widget raises, whatever the
    options were; and the widget goes through the same states, with the same
    effects on page, scheduler and trace, as the widget constructed without
    the options that are not functions: only the stored configuration
    object tells them apart. *)
Theorem non_function_callbacks (elementId : string) (d : Z) (opts : Options)
    (w w' : World) (t : Timeable) :
  timers w = [] →
  constructor elementId d opts w = (Normal (Ready t), w') →
  (is_function (opt_onComplete opts) = false → onComplete t = VNull)
  ∧ (is_function (opt_onTick opts) = false → onTick t = VNull)
  ∧ (∀ ops o, (exec o (run ops (mkSt t w'))).1 = Normal tt)
  ∧ ∃ t0,
      constructor elementId d (without_bad_callbacks opts) w
        = (Normal (Ready t0), w')
      ∧ t = set_options opts t0
      ∧ ∀ ops,
          run ops (mkSt t w') = with_options opts (run ops (mkSt t0 w'))
          ∧ ∀ o, (exec o (run ops (mkSt t w'))).1
                 = (exec o (run ops (mkSt t0 w'))).1.
Proof.
  intros Hw Hc.
  pose proof (constructor_wf _ _ _ _ _ _ Hw Hc) as Hwf.
  destruct (constructor_ready _ _ _ _ _ _ Hc) as (e & He & Ht & Hw').
  split; [intros Hf; rewrite Ht; cbn; by rewrite Hf|].
  split; [intros Hf; rewrite Ht; cbn; by rewrite Hf|].
  split; [intros ops o; apply exec_normal; by apply wf_run|].
  exists (fresh elementId d (without_bad_callbacks opts)).
  assert (t = set_options opts (fresh elementId d (without_bad_callbacks opts)))
    as Hset.
  { rewrite Ht. unfold fresh, set_options, without_bad_callbacks,
      absent_unless_function. cbn.
    by destruct (opt_onComplete opts), (opt_onTick opts). }
  split.
  { rewrite (constructor_found _ _ _ _ e He). f_equal.
    rewrite Hw'. do 2 f_equal. unfold rendered. f_equal.
    rewrite Hset. reflexivity. }
  split; [done|].
  intros ops.
  assert (mkSt t w'
          = with_options opts
              (mkSt (fresh elementId d (without_bad_callbacks opts)) w'))
    as -> by (by rewrite Hset).
  split; [apply run_with_options|].
  intros o. by rewrite run_with_options, exec_with_options.
Qed.

(** A string and a number where the callbacks should be. *)
Lemma non_function_callbacks_witness :
  let opts := mkOptions (Some "ss") (VStr "done") (VNum 5) in
  ∃ t w',
    constructor "timer" 1 opts sample_world = (Normal (Ready t), w')
    ∧ onComplete t = VNull
    ∧ onTick t = VNull
    ∧ (exec (Fire 1%positive)
         (run [Start; Fire 1%positive] (mkSt t w'))).1 = Normal tt.
Proof.
  intros opts.
  pose proof (constructor_found "timer" 1 opts sample_world (mkElement "" [])
                eq_refl) as Hc.
  destruct (non_function_callbacks "timer" 1 opts sample_world _ _
              eq_refl Hc) as (Hoc & Hot & Hn & _).
  eexists _, _. split; [exact Hc|].
  split; [exact (Hoc eq_refl)|]. split; [exact (Hot eq_refl)|].
  exact (Hn [Start; Fire 1%positive] (Fire 1%positive)).
Defined.

(** * Further properties *)

(** ** Invariants of runs *)

Section Invariant.

Variable allowed : op → Prop.
Variable I : St → Prop.
Hypothesis I_step : ∀ s o, allowed o → I s → I (step s o).

(** What every allowed step keeps, every run of allowed steps keeps. *)
Lemma run_invariant (ops : list op) (s : St) :
  (∀ o, o ∈ ops → allowed o) → I s → I (run ops s).
Proof.
  revert s. induction ops as [|o ops IH]; intros s Hops Hs; [done|].
  change (run (o :: ops) s) with (run ops (step s o)).
  apply IH.
  - intros o' Ho'. apply Hops. by right.
  - apply I_step; [|done]. apply Hops. by left.
Qed.

End Invariant.

(** ** The element *)

Section Surface.

Lemma classList_contains_add_mono (c c' : string) (l : list string) :
  classList_contains c l = true →
  classList_contains c (classList_add c' l) = true.
Proof.
  unfold classList_contains, classList_add. intros Hc.
  apply bool_decide_eq_true_1 in Hc. apply bool_decide_eq_true_2.
  destruct (bool_decide (c' ∈ l)); [done|]. apply elem_of_app. by left.
Qed.

Lemma classList_contains_remove_ne (c c' : string) (l : list string) :
  c ≠ c' →
  classList_contains c (classList_remove c' l) = classList_contains c l.
Proof.
  intros Hc. unfold classList_contains, classList_remove.
  apply bool_decide_ext. rewrite list_elem_of_filter. tauto.
Qed.

Lemma classList_add_present (c : string) (l : list string) :
  classList_contains c l = true → classList_add c l = l.
Proof.
  unfold classList_contains, classList_add. by intros ->.
Qed.

(** A class on the element stays there through every step, except that
    [reset()] takes "complete" away. *)
Lemma has_class_step (c : string) (s : St) (o : op) :
  (c = "complete" → o ≠ Reset) →
  has_class c s = true → has_class c (step s o) = true.
Proof.
  destruct s as [[el d r i os fm oc ot] [doc tm nh tr]].
  unfold has_class, surface. cbn.
  destruct (doc !! el) as [e|] eqn:He; [|done]. intros Hc Hin.
  destruct o; js_unfold; cbn; js_cases; cbn;
    rewrite ?lookup_alter_eq, ?He; cbn;
    rewrite ?classList_contains_remove_ne by (intros ->; by apply Hc);
    auto using classList_contains_add_mono.
Qed.

(** The classes the widget does not know are left as they are. *)
Lemma has_class_other (c : string) (s : St) (o : op) :
  c ≠ "complete" → c ≠ "timeable-timer" →
  has_class c (step s o) = has_class c s.
Proof.
  destruct s as [[el d r i os fm oc ot] [doc tm nh tr]].
  unfold has_class, surface. cbn. intros Hc Ht.
  destruct o; js_unfold; cbn; js_cases; cbn;
    rewrite ?lookup_alter_eq; destruct (doc !! el) as [e|]; cbn;
    rewrite ?classList_contains_remove_ne, ?classList_contains_add_ne
      by done; done.
Qed.



(** On an element that already carries "timeable-timer", [render()] does
    what [updateDisplay()] does. *)
Lemma render_updateDisplay (s : St) :
  has_class "timeable-timer" s = true → render s = updateDisplay s.
Proof.
  destruct s as [t [doc tm nh tr]].
  unfold has_class, surface. cbn.
  destruct (doc !! element t) as [e|] eqn:He; [|done]. intros Hc.
  js_unfold. cbn. unfold set_document. cbn.
  rewrite (alter_id (map_classList _)); [done|].
  intros x Hx. assert (x = e) as -> by congruence.
  unfold map_classList. rewrite classList_add_present by done.
  by destruct e.
Qed.

Lemma updateDisplay_twice (s : St) :
  step (step s UpdateDisplay) UpdateDisplay = step s UpdateDisplay.
Proof.
  destruct s as [t [doc tm nh tr]].
  js_unfold. cbn. unfold set_document. cbn. do 2 f_equal.
  rewrite alter_alter_eq. by apply alter_ext.
Qed.

End Surface.

Section Constructed.

Lemma constructor_surface (elementId : string) (d : Z) (opts : Options)
    (w w' : World) (t : Timeable) :
  constructor elementId d opts w = (Normal (Ready t), w') →
  ∃ e, document w !! elementId = Some e
       ∧ element t = elementId
       ∧ surface (mkSt t w') = Some (rendered t e).
Proof.
  intros Hc. apply constructor_ready in Hc as (e & He & -> & ->).
  exists e. split; [done|]. split; [done|].
  unfold surface. cbn. by rewrite lookup_insert_eq.
Qed.

Lemma constructor_has_class (elementId : string) (d : Z) (opts : Options)
    (w w' : World) (t : Timeable) :
  constructor elementId d opts w = (Normal (Ready t), w') →
  has_class "timeable-timer" (mkSt t w') = true.
Proof.
  intros Hc. apply constructor_surface in Hc as (e & _ & _ & Hs).
  unfold has_class. rewrite Hs. cbn. apply classList_contains_add.
Qed.

End Constructed.

(** X1. In every state a constructed widget can reach, the element carries
    the class "timeable-timer", so [render()] does exactly what
    [updateDisplay()] does: it returns normally, puts the formatted
    [remainingTime] on display and changes nothing else, and doing it
    twice is doing it once. *)
Theorem render_is_updateDisplay (elementId : string) (d : Z) (opts : Options)
    (w w' : World) (t : Timeable) (ops : list op) :
  constructor elementId d opts w = (Normal (Ready t), w') →
  let s := run ops (mkSt t w') in
  has_class "timeable-timer" s = true
  ∧ render s = updateDisplay s
  ∧ (render s).1 = Normal tt
  ∧ displayed (step s Render)
    = Some (formatTime t (remainingTime (this s)))
  ∧ this (step s Render) = this s
  ∧ timers (world (step s Render)) = timers (world s)
  ∧ trace (world (step s Render)) = trace (world s)
  ∧ (∀ c, has_class c (step s Render) = has_class c s)
  ∧ step (step s Render) Render = step s Render.
Proof.
  intros Hc s.
  assert (has_class "timeable-timer" s = true) as Hcl.
  { apply (run_invariant (λ _, True)
             (λ s, has_class "timeable-timer" s = true)); [|done|].
    - intros s' o _. by apply has_class_step.
    - by eapply constructor_has_class. }
  pose proof (render_updateDisplay s Hcl) as Hr.
  destruct (run_fixed ops (mkSt t w')) as (_ & _ & _ & Hfmt & _).
  fold s in Hfmt. cbn in Hfmt.
  assert (step s Render = step s UpdateDisplay) as Hst
    by (unfold step, exec; by rewrite Hr).
  assert (step (step s Render) Render = step s Render) as Htw.
  { rewrite Hst. unfold step at 1, exec.
    rewrite render_updateDisplay by (by apply has_class_step).
    exact (updateDisplay_twice s). }
  split; [done|]. split; [done|]. rewrite Htw, Hst, Hr.
  clear Hr Hst Htw. unfold has_class, displayed, surface in *.
  destruct s as [t0 [doc tm nh tr]]. cbn in *.
  destruct (doc !! element t0) as [e|] eqn:He; [|done].
  split; [done|]. split.
  { js_unfold. cbn. rewrite lookup_alter_eq, He. cbn. f_equal.
    by apply formatTime_format. }
  split; [done|]. split; [done|]. split; [done|]. split.
  { intros c. js_unfold. cbn. by rewrite lookup_alter_eq, He. }
  done.
Qed.

(** A run of the sample widget that ends in its completion. *)
Lemma render_is_updateDisplay_witness :
  let s := run [Start; Fire 1%positive; Fire 1%positive]
             (sample_widget 1) in
  render s = updateDisplay s
  ∧ step (step s Render) Render = step s Render.
Proof.
  destruct (render_is_updateDisplay "timer" 1 sample_opts sample_world
              (world (sample_widget 1)) (this (sample_widget 1))
              [Start; Fire 1%positive; Fire 1%positive])
    as (_ & Hr & _ & _ & _ & _ & _ & _ & Ht); [by vm_compute|].
  split; [exact Hr | exact Ht].
Defined.

(** X2. The "complete" marker, once on the element, stays there through
    every method call and tick until [reset()] is called: starting the
    widget again does not take it away. *)
Theorem marker_stays_until_reset (s : St) (ops : list op) :
  Reset ∉ ops →
  marked_complete s = true → marked_complete (run ops s) = true.
Proof.
  intros Hops Hm.
  apply (run_invariant (λ o, o ≠ Reset) (λ s, has_class "complete" s = true));
    [| |done].
  - intros s' o Ho. by apply has_class_step.
  - intros o Ho ->. by apply Hops.
Qed.

(** The sample widget, completed, then started again and left to tick. *)
Lemma marker_stays_until_reset_witness :
  marked_complete
    (run [Start; Fire 2%positive; UpdateDisplay; Pause]
       (elapse_n 4 (step (sample_widget 3) Start))) = true.
Proof.
  apply marker_stays_until_reset.
  - refine (bool_decide_unpack _ _). by vm_compute.
  - by vm_compute.
Defined.

(** X3. The widget manages two classes only: whether the element carries
    any class other than "complete" and "timeable-timer" is, in every
    reachable state, what it was on the page before construction. *)
Theorem foreign_classes_untouched (elementId : string) (d : Z)
    (opts : Options) (w w' : World) (t : Timeable) (ops : list op)
    (c : string) :
  constructor elementId d opts w = (Normal (Ready t), w') →
  c ≠ "complete" → c ≠ "timeable-timer" →
  ∃ e, document w !! elementId = Some e
       ∧ has_class c (run ops (mkSt t w'))
         = classList_contains c (classList e).
Proof.
  intros Hc Hc1 Hc2.
  apply constructor_surface in Hc as (e & He & _ & Hs).
  exists e. split; [done|].
  apply (run_invariant (λ _, True)
           (λ s, has_class c s = classList_contains c (classList e)));
    [|done|].
  - intros s o _ <-. by apply has_class_other.
  - unfold has_class. rewrite Hs. cbn.
    by apply classList_contains_add_ne.
Qed.

(** An element that comes with a class of its own. *)
Lemma foreign_classes_untouched_witness :
  let w := mkWorld {[ "timer" := mkElement "" ["big"; "complete"] ]} []
             1%positive [] in
  ∃ e, document w !! "timer" = Some e
       ∧ has_class "big"
           (run [Start; Fire 1%positive; Fire 1%positive; Reset]
              (mkSt (fresh "timer" 1 sample_opts)
                    (constructor "timer" 1 sample_opts w).2))
         = classList_contains "big" (classList e).
Proof.
  intros w.
  apply (foreign_classes_untouched "timer" 1 sample_opts w);
    [by vm_compute | discriminate | discriminate].
Defined.



(** ** The display and the countdown *)

Section Display.

(** What every step but a [complete()] called by hand keeps: the element
    shows the formatted [remainingTime]. *)
Lemma step_display (s : St) (o : op) :
  o ≠ Complete →
  0 ≤ duration (this s) ∧ 0 ≤ remainingTime (this s)
  ∧ displayed s = Some (formatTime (this s) (remainingTime (this s))) →
  0 ≤ duration (this (step s o)) ∧ 0 ≤ remainingTime (this (step s o))
  ∧ displayed (step s o)
    = Some (formatTime (this (step s o)) (remainingTime (this (step s o)))).
Proof.
  destruct s as [[el d r i os fm oc ot] [doc tm nh tr]].
  unfold displayed, surface. cbn.
  destruct (doc !! el) as [e|] eqn:He; [|by intros ? (_ & _ & ?)].
  cbn. intros Ho (Hd & Hr & [= Hs]).
  destruct o; try done; js_unfold; cbn; js_cases; cbn;
    rewrite ?lookup_alter_eq, ?He; cbn; rewrite ?Hs;
    repeat match goal with
           | H : (0 <? _) = true |- _ => apply Z.ltb_lt in H
           | H : (0 <? _) = false |- _ => apply Z.ltb_ge in H
           end;
    try (assert (r = 0) as -> by lia);
    (split; [lia|]); (split; [lia|]);
    f_equal; by apply formatTime_format.
Qed.

(** A widget with nothing to count never changes [remainingTime]. *)
Lemma step_nothing_to_count (s : St) (o : op) :
  duration (this s) ≤ 0 ∧ remainingTime (this s) = duration (this s) →
  duration (this (step s o)) = duration (this s)
  ∧ remainingTime (this (step s o)) = duration (this s).
Proof.
  destruct s as [[el d r i os fm oc ot] [doc tm nh tr]]. cbn.
  intros [Hd ->].
  destruct o; js_unfold; cbn; js_cases; cbn;
    repeat match goal with
           | H : (0 <? _) = true |- _ => apply Z.ltb_lt in H
           end;
    done || lia.
Qed.

(** A widget that is not running, with no time left, started and given one
    period. *)
Lemma restart_at_zero (s : St) :
  wf s → interval (this s) = None → remainingTime (this s) ≤ 0 →
  elapse (step s Start) =
    mkSt (this s)
         (mkWorld
            (alter (map_classList (classList_add "complete"))
               (element (this s))
               (alter (set_innerText (formatTime (this s) 0))
                  (element (this s)) (document (world s))))
            [] (Pos.succ (nextHandle (world s)))
            (trace (world s) ++ complete_call (onComplete (this s)))).
Proof.
  intros Hs Hi Hr.
  pose proof (wf_step s Start Hs) as Hs1.
  assert (step s Start
          = mkSt (set_interval (Some (nextHandle (world s))) (this s))
                 (mkWorld (document (world s))
                          (timers (world s) ++ [nextHandle (world s)])
                          (Pos.succ (nextHandle (world s)))
                          (trace (world s)))) as Hst
    by (unfold step, exec; by rewrite start_idle).
  rewrite Hst in *.
  rewrite (elapse_running _ (nextHandle (world s)) Hs1 eq_refl).
  rewrite tick_zero by done.
  rewrite (complete_running _ (nextHandle (world s)) Hs1 eq_refl).
  cbn. f_equal. destruct s as [[] ?]. cbn in *. by subst.
Qed.

End Display.

(** X5. As long as [complete()] is not called by hand, the element of a
    widget constructed with a duration [d ≥ 0] shows the formatted
    [remainingTime] in every state the widget can reach: after every tick,
    pause, restart and reset, and after the completion that a tick
    triggers. *)
Theorem display_shows_remaining (elementId : string) (d : Z)
    (opts : Options) (w w' : World) (t : Timeable) (ops : list op) :
  0 ≤ d →
  constructor elementId d opts w = (Normal (Ready t), w') →
  Complete ∉ ops →
  displayed (run ops (mkSt t w'))
  = Some (formatTime t (remainingTime (this (run ops (mkSt t w'))))).
Proof.
  intros Hd Hc Hops.
  destruct (run_fixed ops (mkSt t w')) as (_ & _ & _ & Hfmt & _).
  cbn in Hfmt.
  rewrite (formatTime_format t (this (run ops (mkSt t w')))) by done.
  apply (run_invariant (λ o, o ≠ Complete)
           (λ s, 0 ≤ duration (this s) ∧ 0 ≤ remainingTime (this s)
                 ∧ displayed s
                   = Some (formatTime (this s) (remainingTime (this s))))).
  - intros s o. apply step_display.
  - intros o Ho ->. by apply Hops.
  - destruct (constructor_surface _ _ _ _ _ _ Hc) as (e & _ & _ & Hs).
    apply constructor_ready in Hc as (_ & _ & Ht & _).
    unfold displayed. rewrite Hs, Ht. cbn. done.
Qed.

(** The sample widget paused, restarted, run to completion and reset. *)
Lemma display_shows_remaining_witness :
  let s := run [Start; Fire 1%positive; Pause; Start; Fire 2%positive;
                Fire 2%positive; Fire 2%positive; Reset; Start;
                Fire 3%positive] (sample_widget 3) in
  displayed s
  = Some (formatTime (this (sample_widget 3)) (remainingTime (this s))).
Proof.
  apply (display_shows_remaining "timer" 3 sample_opts sample_world);
    [lia | by vm_compute | refine (bool_decide_unpack _ _); by vm_compute].
Defined.

(** X6. In every reachable state the scheduler holds exactly the interval
    whose handle the widget keeps: one when the widget is running, none
    when it is not.  No sequence of calls leaves a second interval or a
    forgotten one behind. *)
Theorem one_interval_at_most (elementId : string) (d : Z) (opts : Options)
    (w w' : World) (t : Timeable) (ops : list op) :
  timers w = [] →
  constructor elementId d opts w = (Normal (Ready t), w') →
  let s := run ops (mkSt t w') in
  timers (world s)
  = match interval (this s) with Some h => [h] | None => [] end
  ∧ (length (timers (world s)) ≤ 1)%nat
  ∧ (interval (this s) = None → elapse s = s).
Proof.
  intros Hw Hc s.
  pose proof (wf_run ops _ (constructor_wf _ _ _ _ _ _ Hw Hc)) as Hs.
  fold s in Hs. pose proof (wf_timers _ Hs) as Ht.
  split; [done|]. split.
  - rewrite Ht. destruct (interval (this s)); cbn; lia.
  - intros Hi. apply elapse_idle. by rewrite Ht, Hi.
Qed.

(** Many calls in a row on the sample widget. *)
Lemma one_interval_at_most_witness :
  (length
     (timers
        (world (run [Start; Start; Pause; Start; Start; Reset; Start;
                     Fire 3%positive; Start]
                  (sample_widget 3)))) ≤ 1)%nat.
Proof.
  destruct (one_interval_at_most "timer" 3 sample_opts sample_world
              (world (sample_widget 3)) (this (sample_widget 3))
              [Start; Start; Pause; Start; Start; Reset; Start;
               Fire 3%positive; Start])
    as (_ & Hl & _); [reflexivity | by vm_compute |].
  exact Hl.
Defined.

(** X7. A widget that is not running and has no time left, as after its
    completion, can be started again without a reset: the first tick then
    completes it once more.  The marker is set, the zero string is shown,
    [onComplete] is called again, the interval is cleared, and
    [remainingTime] is what it was. *)
Theorem restart_completes_again (elementId : string) (d : Z)
    (opts : Options) (w w' : World) (t : Timeable) (ops : list op) :
  timers w = [] →
  constructor elementId d opts w = (Normal (Ready t), w') →
  let s := run ops (mkSt t w') in
  interval (this s) = None → remainingTime (this s) ≤ 0 →
  let s1 := elapse (step s Start) in
  this s1 = this s
  ∧ timers (world s1) = []
  ∧ marked_complete s1 = true
  ∧ displayed s1 = Some (formatTime t 0)
  ∧ trace (world s1) = trace (world s) ++ complete_call (onComplete t)
  ∧ (∀ f, onComplete t = VFun f →
       completions f (trace (world s1))
       = S (completions f (trace (world s)))).
Proof.
  intros Hw Hc s Hi Hr s1.
  pose proof (wf_run ops _ (constructor_wf _ _ _ _ _ _ Hw Hc)) as Hs.
  fold s in Hs.
  destruct (run_fixed ops (mkSt t w')) as (_ & _ & _ & Hfmt & Hoc & _).
  fold s in Hfmt, Hoc. cbn in Hfmt, Hoc.
  pose proof (restart_at_zero s Hs Hi Hr) as Hs1. fold s1 in Hs1.
  destruct (wf_surface _ Hs) as [e He]. unfold surface in He.
  assert (surface s1 = Some (completed (this s) e)) as Hsf.
  { rewrite Hs1. unfold surface. cbn. by rewrite !lookup_alter_eq, He. }
  assert (trace (world s1)
          = trace (world s) ++ complete_call (onComplete t)) as Htr
    by (by rewrite Hs1, Hoc).
  split; [by rewrite Hs1|]. split; [by rewrite Hs1|].
  split; [unfold marked_complete; rewrite Hsf; apply classList_contains_add|].
  split.
  { unfold displayed. rewrite Hsf. cbn. f_equal. by apply formatTime_format. }
  split; [done|].
  intros f Hf.
  rewrite Htr, Hf, completions_app, completions_complete_call. lia.
Qed.

(** The sample widget after its completion. *)
Lemma restart_completes_again_witness :
  let s := run [Start; Fire 1%positive; Fire 1%positive]
             (sample_widget 1) in
  let s1 := elapse (step s Start) in
  completions 1 (trace (world s)) = 1%nat
  ∧ completions 1 (trace (world s1)) = S (completions 1 (trace (world s))).
Proof.
  destruct (restart_completes_again "timer" 1 sample_opts sample_world
              (world (sample_widget 1)) (this (sample_widget 1))
              [Start; Fire 1%positive; Fire 1%positive])
    as (_ & _ & _ & _ & _ & Hc);
    [reflexivity | by vm_compute | by vm_compute | by vm_compute |].
  split; [by vm_compute|]. exact (Hc 1%nat eq_refl).
Defined.

(** X8. The constructor takes any duration.  With [d ≤ 0] the widget has
    nothing to count: [remainingTime] is [d] in every state it can reach,
    whatever is called and however often the interval fires. *)
Theorem nothing_to_count (elementId : string) (d : Z) (opts : Options)
    (w w' : World) (t : Timeable) (ops : list op) :
  d ≤ 0 →
  constructor elementId d opts w = (Normal (Ready t), w') →
  remainingTime (this (run ops (mkSt t w'))) = d
  ∧ displayed (mkSt t w') = Some (formatTime t d).
Proof.
  intros Hd Hc.
  destruct (constructor_surface _ _ _ _ _ _ Hc) as (e & _ & _ & Hs).
  apply constructor_ready in Hc as (_ & _ & Ht & _).
  split.
  - apply (run_invariant (λ _, True)
             (λ s, duration (this s) = d ∧ remainingTime (this s) = d));
      [|done|by rewrite Ht].
    intros s o _ [Hs1 Hs2].
    destruct (step_nothing_to_count s o) as [Hd' Hr'];
      [rewrite Hs1, Hs2; lia|].
    by rewrite Hd', Hr', Hs1.
  - unfold displayed. rewrite Hs, Ht. cbn. done.
Qed.

(** A widget of zero seconds on the sample page. *)
Lemma nothing_to_count_witness :
  remainingTime
    (this (run [Start; Fire 1%positive; Reset; Start; Fire 2%positive]
             (sample_widget 0))) = 0.
Proof.
  apply (nothing_to_count "timer" 0 sample_opts sample_world
           (world (sample_widget 0)) (this (sample_widget 0)));
    [lia | by vm_compute].
Defined.

(** ** What the widget says *)

Section Trace.

Lemma step_emits (s : St) (o : op) :
  remainingTime (this s) ≤ duration (this s) →
  ∃ l, trace (world (step s o)) = trace (world s) ++ l
       ∧ Forall (emitted (this s)) l.
Proof.
  destruct s as [[el d r i os fm oc ot] [doc tm nh tr]]. cbn. intros Hr.
  destruct o; js_unfold; cbn; js_cases; cbn;
    repeat match goal with
           | H : (0 <? _) = true |- _ => apply Z.ltb_lt in H
           end;
    first
      [ by (exists []; rewrite app_nil_r)
      | eexists [_]; split;
        [reflexivity | repeat (constructor; [js_emitted|]); constructor]
      | eexists [_; _]; split;
        [by rewrite <- app_assoc
        | repeat (constructor; [js_emitted|]); constructor] ].
Qed.

Lemma fire_active (s : St) (h : positive) :
  h ∈ timers (world s) → step s (Fire h) = (tick s).2.
Proof.
  intros Hh. unfold step, exec, fire. by rewrite bool_decide_eq_true_2.
Qed.

(** The trace after [reset()] and after [complete()]. *)
Lemma reset_trace (s : St) :
  trace (world (step s Reset)) = trace (world s) ++ idle_warning (this s).
Proof.
  destruct s as [[el d r i os fm oc ot] [doc tm nh tr]].
  unfold idle_warning. js_unfold; cbn; js_cases; cbn;
    by rewrite ?app_nil_r.
Qed.

Lemma complete_trace (s : St) :
  trace (world (step s Complete))
  = trace (world s) ++ idle_warning (this s)
      ++ complete_call (onComplete (this s)).
Proof.
  destruct s as [[el d r i os fm oc ot] [doc tm nh tr]].
  unfold idle_warning. js_unfold; cbn; js_cases; cbn;
    by rewrite ?app_nil_r, <- ?app_assoc.
Qed.

Lemma complete_this (s : St) :
  this (step s Complete) = set_interval None (this s).
Proof.
  destruct s as [[el d r i os fm oc ot] [doc tm nh tr]].
  js_unfold; cbn; js_cases; done.
Qed.

Lemma complete_surface (s : St) :
  surface (step s Complete) = completed (this s) <$> surface s.
Proof.
  destruct s as [[el d r i os fm oc ot] [doc tm nh tr]].
  unfold surface. js_unfold; cbn; js_cases; cbn;
    rewrite !lookup_alter_eq; by destruct (doc !! el).
Qed.

End Trace.

(** X9. What the constructor fixed stays fixed: in every reachable state
    the element reference, the duration, the configuration object, the
    format (the one given, or "mm:ss" when none or the empty string was
    given) and the two stored callbacks are those of the construction. *)
Theorem configuration_is_fixed (elementId : string) (d : Z)
    (opts : Options) (w w' : World) (t : Timeable) (ops : list op) :
  constructor elementId d opts w = (Normal (Ready t), w') →
  let s := run ops (mkSt t w') in
  element (this s) = elementId
  ∧ duration (this s) = d
  ∧ options (this s) = opts
  ∧ format (this s)
    = match opt_format opts with
      | Some f => if bool_decide (f = "") then "mm:ss" else f
      | None => "mm:ss"
      end
  ∧ onComplete (this s)
    = (if is_function (opt_onComplete opts) then opt_onComplete opts
       else VNull)
  ∧ onTick (this s)
    = (if is_function (opt_onTick opts) then opt_onTick opts else VNull).
Proof.
  intros Hc s. apply constructor_ready in Hc as (_ & _ & Ht & _).
  unfold s.
  destruct (run_fixed ops (mkSt t w')) as (-> & -> & -> & -> & -> & ->).
  by rewrite Ht.
Qed.

(** The sample widget with an empty format string. *)
Lemma configuration_is_fixed_witness :
  let opts := mkOptions (Some "") (VFun 1) (VStr "tick") in
  let s := run [Start; Fire 1%positive; Reset]
             (mkSt (fresh "timer" 2 opts)
                   (constructor "timer" 2 opts sample_world).2) in
  duration (this s) = 2 ∧ format (this s) = "mm:ss" ∧ onTick (this s) = VNull.
Proof.
  intros opts.
  destruct (configuration_is_fixed "timer" 2 opts sample_world
              (constructor "timer" 2 opts sample_world).2
              (fresh "timer" 2 opts) [Start; Fire 1%positive; Reset])
    as (_ & Hd & _ & Hf & _ & Ht); [by vm_compute|].
  split; [exact Hd|]. split; [exact Hf | exact Ht].
Defined.

(** X10. [reset()] and [complete()] go through [pause()], so each of them
    logs the warning "Timer is not running." when the widget is not
    running and logs nothing of its own when it is; [complete()] then calls
    [onComplete], every time it is called: it does not remember that the
    widget is complete already. *)
Theorem idle_reset_and_complete_warn (s : St) :
  trace (world (step s Reset)) = trace (world s) ++ idle_warning (this s)
  ∧ trace (world (step s Complete))
    = trace (world s) ++ idle_warning (this s)
        ++ complete_call (onComplete (this s))
  ∧ trace (world (step (step s Complete) Complete))
    = trace (world s) ++ idle_warning (this s)
        ++ complete_call (onComplete (this s))
        ++ [ConsoleWarn not_running]
        ++ complete_call (onComplete (this s)).
Proof.
  split; [apply reset_trace|]. split; [apply complete_trace|].
  rewrite (complete_trace (step s Complete)), complete_trace, complete_this.
  by rewrite <- !app_assoc.
Qed.

(** X11. [complete()] called by hand while [r > 0] seconds remain shows the
    zero string and sets the marker but keeps [remainingTime] at [r]: a
    following [start()] takes the countdown up where it was, and the next
    tick shows [r - 1] seconds on an element still marked "complete". *)
Theorem complete_by_hand (elementId : string) (d : Z) (opts : Options)
    (w w' : World) (t : Timeable) (ops : list op) :
  timers w = [] →
  constructor elementId d opts w = (Normal (Ready t), w') →
  let s := run ops (mkSt t w') in
  0 < remainingTime (this s) →
  let c := step s Complete in
  let s2 := elapse (step c Start) in
  remainingTime (this c) = remainingTime (this s)
  ∧ interval (this c) = None
  ∧ displayed c = Some (formatTime t 0)
  ∧ marked_complete c = true
  ∧ remainingTime (this s2) = remainingTime (this s) - 1
  ∧ displayed s2 = Some (formatTime t (remainingTime (this s) - 1))
  ∧ marked_complete s2 = true.
Proof.
  intros Hw Hc s Hr c s2.
  pose proof (wf_run ops _ (constructor_wf _ _ _ _ _ _ Hw Hc)) as Hs.
  fold s in Hs.
  destruct (run_fixed ops (mkSt t w')) as (_ & _ & _ & Hfmt & _).
  fold s in Hfmt. cbn in Hfmt.
  pose proof (wf_step s Complete Hs) as Hwc. fold c in Hwc.
  pose proof (complete_this s) as Hthis. fold c in Hthis.
  pose proof (complete_surface s) as Hsf. fold c in Hsf.
  destruct (wf_surface _ Hs) as [e He]. rewrite He in Hsf. cbn in Hsf.
  assert (marked_complete c = true) as Hm.
  { unfold marked_complete. rewrite Hsf. apply classList_contains_add. }
  pose proof (wf_step c Start Hwc) as Hw1.
  destruct (start_runs c Hwc) as (h & Hi1 & _ & Hr1).
  assert (remainingTime (this c) = remainingTime (this s)) as Hrc
    by (by rewrite Hthis).
  split; [done|]. split; [by rewrite Hthis|]. split.
  { unfold displayed. rewrite Hsf. cbn. f_equal. by apply formatTime_format. }
  split; [done|].
  assert (s2 = step (step c Start) (Fire h)) as Hs2.
  { unfold s2. rewrite (elapse_running _ h Hw1 Hi1). symmetry.
    apply fire_active. rewrite (wf_timers _ Hw1), Hi1. set_solver. }
  assert (marked_complete s2 = true) as Hm2.
  { rewrite Hs2. change marked_complete with (has_class "complete").
    apply has_class_step; [done|]. by apply has_class_step. }
  split.
  { unfold s2. rewrite (elapse_running _ h Hw1 Hi1), tick_remaining.
    rewrite Hr1, Hrc. destruct (Z.ltb_spec 0 (remainingTime (this s))); lia. }
  split; [|done].
  destruct (step_fixed c Start) as (_ & _ & _ & Hf1 & _).
  destruct (step_fixed s Complete) as (_ & _ & _ & Hfc & _). fold c in Hfc.
  assert (is_Some (surface (step c Start))) as [e1 He1]
    by apply (wf_surface _ Hw1).
  unfold s2. rewrite (elapse_running _ h Hw1 Hi1).
  rewrite tick_positive by (done || lia).
  unfold displayed, surface in *. cbn.
  rewrite lookup_alter_eq, He1, Hr1, Hrc. cbn. f_equal.
  apply formatTime_format. by rewrite Hf1, Hfc.
Qed.

(** The sample widget, completed by hand one tick into three seconds. *)
Lemma complete_by_hand_witness :
  let s := run [Start; Fire 1%positive] (sample_widget 3) in
  let c := step s Complete in
  let s2 := elapse (step c Start) in
  remainingTime (this s) = 2
  ∧ remainingTime (this c) = remainingTime (this s)
  ∧ remainingTime (this s2) = remainingTime (this s) - 1
  ∧ marked_complete s2 = true.
Proof.
  destruct (complete_by_hand "timer" 3 sample_opts sample_world
              (world (sample_widget 3)) (this (sample_widget 3))
              [Start; Fire 1%positive])
    as (Hc & _ & _ & _ & Hr & _ & Hm);
    [reflexivity | by vm_compute | by vm_compute |].
  split; [by vm_compute|]. split; [exact Hc|]. split; [exact Hr | exact Hm].
Defined.

(** X12. Everything the widget appends to the trace is one of its two
    warnings, a call of the stored [onTick] with a number of seconds in
    [0, d), or a call of the stored [onComplete] without arguments.  In
    particular it logs no error once it is constructed, and [onTick] never
    sees a negative number or the duration itself. *)
Theorem only_emits (elementId : string) (d : Z) (opts : Options)
    (w w' : World) (t : Timeable) (ops : list op) :
  constructor elementId d opts w = (Normal (Ready t), w') →
  ∃ l, trace (world (run ops (mkSt t w'))) = trace w ++ l
       ∧ Forall (emitted t) l.
Proof.
  intros Hc. apply constructor_ready in Hc as (e & _ & Ht & Hw).
  assert (trace w' = trace w) as <- by (by rewrite Hw).
  apply (run_invariant (λ _, True)
           (λ s, remainingTime (this s) ≤ duration (this s)
                 ∧ duration (this s) = duration t
                 ∧ onTick (this s) = onTick t
                 ∧ onComplete (this s) = onComplete t
                 ∧ ∃ l, trace (world s) = trace w' ++ l
                        ∧ Forall (emitted t) l));
    [|done|].
  - intros s o _ (Hr & Hd & Hot & Hoc & l & Hl & HF).
    destruct (step_fixed s o) as (_ & Hd' & _ & _ & Hoc' & Hot').
    destruct (step_emits s o Hr) as (l' & Hl' & HF').
    split.
    { rewrite Hd'.
      destruct (step_remaining s o) as [->|[[? ->]| ->]]; lia. }
    split; [by rewrite Hd'|]. split; [by rewrite Hot'|].
    split; [by rewrite Hoc'|].
    exists (l ++ l'). split; [by rewrite Hl', Hl, app_assoc|].
    apply Forall_app. split; [done|].
    eapply Forall_impl; [exact HF'|].
    intros ev. unfold emitted. by rewrite Hd, Hot, Hoc.
  - split; [by rewrite Ht|]. repeat split; try done.
    exists []. by rewrite app_nil_r.
Qed.

(** The sample widget run past its completion, with a spare call of each
    method. *)
Lemma only_emits_witness :
  ∃ l, trace
         (world (run [Pause; Start; Start; Fire 1%positive; Fire 1%positive;
                      Fire 1%positive; Reset; Complete]
                   (sample_widget 2)))
       = trace sample_world ++ l
       ∧ Forall (emitted (this (sample_widget 2))) l.
Proof.
  apply (only_emits "timer" 2 sample_opts sample_world
           (world (sample_widget 2)) (this (sample_widget 2))).
  by vm_compute.
Defined.

(** ** More on formatting *)

Section Width.

(** A two-digit number is printed with two characters. *)
Lemma to_string_two_digits (n : Z) :
  10 ≤ n < 100 → String.length (to_string n) = 2%nat.
Proof.
  intros Hn. destruct n as [|p|p]; try lia.
  unfold to_string, pretty, pretty_Z, pretty, pretty_positive, pretty,
    pretty_N.
  rewrite decide_False by lia.
  assert (10 ≤ N.pos p < 100)%N as Hp by lia.
  assert (0 < N.pos p `div` 10)%N
    by (apply N.div_str_pos; lia).
  assert ((N.pos p `div` 10) `div` 10 = 0)%N as H0.
  { apply N.div_small. apply N.Div0.div_lt_upper_bound. lia. }
  rewrite pretty_N_go_step by lia.
  rewrite pretty_N_go_step by done.
  by rewrite H0, pretty_N_go_0.
Qed.

Lemma padZero_two_characters (n : Z) :
  0 ≤ n < 100 → String.length (padZero n) = 2%nat.
Proof.
  intros Hn. destruct (decide (n < 10)) as [Hs|Hs].
  - apply padZero_small. lia.
  - rewrite padZero_large by lia. apply to_string_two_digits. lia.
Qed.

End Width.

(** X13. The display has a fixed width: three characters for the hours and
    for the minutes when requested, two for the seconds.  This holds for
    every [s ≥ 0] when hours are not requested, and up to 99:59:59 when
    they are; so "mm:ss" always takes five characters and "hh:mm:ss" eight
    for less than a hundred hours. *)
Theorem display_width (t : Timeable) (s : Z) :
  0 ≤ s →
  includes (format t) "hh" = false ∨ s < 360000 →
  String.length (formatTime t s)
  = ((if includes (format t) "hh" then 3 else 0)
     + (if includes (format t) "mm" then 3 else 0)
     + (if includes (format t) "ss" then 2 else 0))%nat.
Proof.
  intros Hs Hh. rewrite formatTime_components by done.
  assert (0 ≤ s mod 3600 < 3600) by (apply Z.mod_pos_bound; lia).
  assert (0 ≤ s mod 3600 / 60 < 100).
  { split; [apply Z.div_pos; lia|].
    apply Z.div_lt_upper_bound; lia. }
  assert (0 ≤ s mod 60 < 100)
    by (pose proof (Z.mod_pos_bound s 60); lia).
  assert (includes (format t) "hh" = true → 0 ≤ s / 3600 < 100) as Hhrs.
  { intros Hi. destruct Hh as [Hh|Hh]; [congruence|].
    split; [apply Z.div_pos; lia|].
    apply Z.div_lt_upper_bound; lia. }
  destruct (includes (format t) "hh"), (includes (format t) "mm"),
    (includes (format t) "ss");
    rewrite ?length_append, ?padZero_two_characters by auto; reflexivity.
Qed.

(** 59:59 and 99:59:59. *)
Lemma display_width_witness :
  String.length (formatTime (sample_format "mm:ss") 86399) = 5%nat
  ∧ String.length (formatTime (sample_format "hh:mm:ss") 359999) = 8%nat.
Proof.
  split.
  - apply (display_width (sample_format "mm:ss") 86399); [lia|].
    left. by vm_compute.
  - apply (display_width (sample_format "hh:mm:ss") 359999); [lia|].
    right. lia.
Defined.

(** X14. A format without "hh" does not carry the hours over into the
    minutes: the display of [s ≥ 0] seconds repeats every 3600 seconds, so
    one hour shows as zero.  A format with neither "hh" nor "mm" repeats
    every 60 seconds. *)
Theorem display_wraps (t : Timeable) (s k : Z) :
  0 ≤ s → 0 ≤ k →
  (includes (format t) "hh" = false →
     formatTime t (s + 3600 * k) = formatTime t s)
  ∧ (includes (format t) "hh" = false → includes (format t) "mm" = false →
       formatTime t (s + 60 * k) = formatTime t s).
Proof.
  intros Hs Hk. split.
  - intros Hh. rewrite !formatTime_components by lia. rewrite Hh.
    replace (s + 3600 * k) with (s + k * 3600) by lia.
    rewrite Z_mod_plus_full.
    replace (s + k * 3600) with (s + (k * 60) * 60) by lia.
    by rewrite Z_mod_plus_full.
  - intros Hh Hm. rewrite !formatTime_components by lia. rewrite Hh, Hm.
    replace (s + 60 * k) with (s + k * 60) by lia.
    by rewrite Z_mod_plus_full.
Qed.

(** One hour and five seconds in minutes and seconds. *)
Lemma display_wraps_witness :
  formatTime (sample_format "mm:ss") (5 + 3600 * 1)
  = formatTime (sample_format "mm:ss") 5.
Proof.
  destruct (display_wraps (sample_format "mm:ss") 5 1) as [Hw _];
    [lia | lia |].
  apply Hw. by vm_compute.
Defined.

(** ** Reading the display back *)

Section Reading.

Lemma pretty_N_char_no_colon (x : N) : pretty_N_char x ≠ ":"%char.
Proof. unfold pretty_N_char. by repeat case_match. Qed.

Lemma colon_free_pretty_N_go (x : N) :
  ∀ s, colon_free s = true → colon_free (pretty_N_go x s) = true.
Proof.
  induction (N.lt_wf_0 x) as [x _ IH]. intros s Hs.
  destruct (decide (x = 0%N)) as [->|Hx]; [by rewrite pretty_N_go_0|].
  rewrite pretty_N_go_step by lia.
  apply IH; [apply N.div_lt; lia|]. cbn.
  by rewrite bool_decide_eq_false_2 by apply pretty_N_char_no_colon.
Qed.

Lemma colon_free_padZero (n : Z) : 0 ≤ n → colon_free (padZero n) = true.
Proof.
  intros Hn.
  assert (colon_free (to_string n) = true) as Hc.
  { destruct n as [|p|p]; [done| |lia].
    unfold to_string, pretty, pretty_Z, pretty, pretty_positive, pretty,
      pretty_N.
    rewrite decide_False by lia. by apply colon_free_pretty_N_go. }
  unfold padZero. destruct (n <? 10); [|done].
  by rewrite append_cons, append_nil_l.
Qed.

(** Two colon-free strings followed by a colon and more are told apart at
    the colon. *)
Lemma split_at_colon (a b x y : string) :
  colon_free a = true → colon_free b = true →
  a +:+ ":" +:+ x = b +:+ ":" +:+ y → a = b ∧ x = y.
Proof.
  revert b. induction a as [|c a IH]; intros [|c' b] Ha Hb;
    rewrite ?append_nil_l, ?append_cons, ?append_nil_l; intros Heq.
  - by injection Heq as ->.
  - injection Heq as <- _. cbn in Hb.
    by rewrite bool_decide_eq_true_2 in Hb.
  - injection Heq as -> _. cbn in Ha.
    by rewrite bool_decide_eq_true_2 in Ha.
  - injection Heq as -> Heq. cbn in Ha, Hb.
    apply andb_prop in Ha as [_ Ha]. apply andb_prop in Hb as [_ Hb].
    by destruct (IH b Ha Hb Heq) as [-> ->].
Qed.

(** A two-digit number is printed as its tens digit and its units
    digit. *)
Lemma to_string_tens_units (n : Z) :
  10 ≤ n < 100 →
  to_string n =
    String (pretty_N_char (Z.to_N n `div` 10))
           (String (pretty_N_char (Z.to_N n `mod` 10)) "").
Proof.
  intros Hn. destruct n as [|p|p]; try lia.
  unfold to_string, pretty, pretty_Z, pretty, pretty_positive, pretty,
    pretty_N.
  rewrite decide_False by lia. cbn [Z.to_N].
  assert (10 ≤ N.pos p < 100)%N as Hp by lia.
  assert (0 < N.pos p `div` 10 < 10)%N as [? ?].
  { split; [apply N.div_str_pos; lia|].
    apply N.Div0.div_lt_upper_bound. lia. }
  rewrite pretty_N_go_step by lia.
  rewrite pretty_N_go_step by done.
  rewrite (N.div_small (N.pos p `div` 10) 10) by done.
  by rewrite (N.mod_small (N.pos p `div` 10) 10), pretty_N_go_0.
Qed.

Lemma padZero_inj (a b : Z) :
  0 ≤ a → 0 ≤ b → padZero a = padZero b → a = b.
Proof.
  assert (∀ a b, 0 ≤ a < 10 → 10 ≤ b → padZero a ≠ padZero b) as Hcross.
  { intros a' b' Ha' Hb' Heq.
    destruct (padZero_small a' Ha') as [Hpa Hla].
    rewrite (padZero_large b') in Heq by done.
    destruct (decide (b' < 100)) as [Hlt|Hge].
    - rewrite Hpa, (to_string_tens_units b'), append_cons, append_nil_l
        in Heq by lia.
      injection Heq as Hc _.
      apply (pretty_N_char_inj 0) in Hc; [|lia|].
      + assert (1 ≤ Z.to_N b' `div` 10)%N; [|lia].
        apply N.div_le_lower_bound; lia.
      + apply N.Div0.div_lt_upper_bound. lia.
    - pose proof (to_string_length 2 b') as Hlen. cbn in Hlen.
      rewrite <- Heq, Hla in Hlen. lia. }
  intros Ha Hb Heq.
  destruct (decide (a < 10)) as [Ha1|Ha1], (decide (b < 10)) as [Hb1|Hb1].
  - destruct (padZero_small a) as [Hpa _]; [lia|].
    destruct (padZero_small b) as [Hpb _]; [lia|].
    rewrite Hpa, Hpb in Heq. apply (inj (String.append "0")) in Heq.
    unfold to_string in Heq. by apply (inj pretty) in Heq.
  - destruct (Hcross a b); (done || lia).
  - destruct (Hcross b a); (done || lia).
  - rewrite !padZero_large in Heq by lia.
    unfold to_string in Heq. by apply (inj pretty) in Heq.
Qed.

End Reading.

(** X15. The display can be read back.  With hours, minutes and seconds
    requested, two different numbers of seconds [≥ 0] are never shown
    alike; with minutes and seconds only this holds below one hour. *)
Theorem display_determines_time (t : Timeable) (a b : Z) :
  0 ≤ a → 0 ≤ b →
  includes (format t) "mm" = true → includes (format t) "ss" = true →
  includes (format t) "hh" = true ∨ (a < 3600 ∧ b < 3600) →
  formatTime t a = formatTime t b → a = b.
Proof.
  intros Ha Hb Hm Hs Hh. rewrite !formatTime_components by done.
  rewrite Hm, Hs.
  assert (∀ n, 0 ≤ n → 0 ≤ n mod 3600 / 60 ∧ 0 ≤ n mod 60) as Hpos.
  { intros n Hn. pose proof (Z.mod_pos_bound n 3600).
    pose proof (Z.mod_pos_bound n 60).
    split; [apply Z.div_pos; lia | lia]. }
  destruct (Hpos a Ha) as [Ham Has]. destruct (Hpos b Hb) as [Hbm Hbs].
  assert (∀ n, n = 3600 * (n / 3600) + 60 * (n mod 3600 / 60) + n mod 60)
    as Hsplit.
  { intros n. pose proof (Z.div_mod n 3600).
    pose proof (Z.div_mod (n mod 3600) 60).
    assert ((n mod 3600) mod 60 = n mod 60) as Hmm
      by (apply Z.mod_mod_divide; by exists 60).
    lia. }
  assert (padZero (a mod 3600 / 60) +:+ ":" +:+ padZero (a mod 60)
          = padZero (b mod 3600 / 60) +:+ ":" +:+ padZero (b mod 60) →
          a mod 3600 / 60 = b mod 3600 / 60 ∧ a mod 60 = b mod 60) as Hms.
  { intros Heq.
    apply split_at_colon in Heq as [H1 H2]; try by apply colon_free_padZero.
    split; by apply padZero_inj. }
  destruct (includes (format t) "hh") eqn:Hhh.
  - rewrite <- !append_assoc. intros Heq.
    assert (0 ≤ a / 3600 ∧ 0 ≤ b / 3600) as [? ?]
      by (split; apply Z.div_pos; lia).
    apply split_at_colon in Heq as [H1 H2];
      try by apply colon_free_padZero.
    apply padZero_inj in H1; try done.
    destruct (Hms H2) as [H3 H4].
    rewrite (Hsplit a), (Hsplit b). lia.
  - destruct Hh as [?|[Ha' Hb']]; [done|].
    rewrite append_nil_l, <- !append_assoc. intros Heq.
    destruct (Hms Heq) as [H3 H4].
    rewrite (Hsplit a), (Hsplit b).
    rewrite (Z.div_small a 3600), (Z.div_small b 3600) by lia. lia.
Qed.

(** One time written in two ways. *)
Lemma display_determines_time_witness : 3661 = 3600 + 61.
Proof.
  apply (display_determines_time (sample_format "hh:mm:ss"));
    [lia | lia | by vm_compute | by vm_compute | left; by vm_compute
    | by vm_compute].
Defined.
